(** * Tokenomics engine of [BuyerCalculator.tsx]

    A shallow embedding of the economic engine of the buyer calculator:
    the five formula functions, the mint and burn accumulators and the
    [results] record assembled from them.

    Numbers.  A TypeScript [number] is modelled as a real number of the
    Standard Library ([R]), so every statement below is one of exact
    arithmetic: rounding of IEEE doubles, infinities and NaN are outside the
    model.  [Math.exp] is [exp], [Math.max] is [Rmax], [Math.floor] is
    [Zfloor], [x ** 2] is [x ^ 2].  The field [numberOfPurchases] is an
    integer ([Z]): the form reads it with [parseInt] and [validateInput]
    refuses a value that is not an integer.

    Doubles.  Equations between results are read in this exact arithmetic.
    An order between two results can be lost to rounding, so the module
    [Double] at the end of the definitions repeats the mint accumulator
    over binary64 numbers (the primitive floats, rounding to nearest even
    as the language does), to evaluate the code as it runs. *)

From Stdlib Require Import Strings.String.
From Stdlib Require Floats.PrimFloat Floats.FloatOps Floats.SpecFloat.
From Stdlib Require Numbers.Cyclic.Int63.Uint63.
From Stdlib Require Import Reals.Reals ZArith.ZArith Lists.List.
From Stdlib Require Import micromega.Lra micromega.Lia micromega.Psatz.
Import ListNotations.

Open Scope R_scope.

(** ** Data model *)

(** [interface SystemParams]. *)
Record SystemParams : Type := mkSystemParams {
  CB_base : R;
  alpha : R;
  beta : R;
  gamma : R;
  P0 : R;
  k : R;
  discount_base : R;
  theta : R;
  burn_cap : R;
  access_fee : R;
  user_cap : R;
  t_launch : R
}.

(** [interface UserInputs]. *)
Record UserInputs : Type := mkUserInputs {
  purchasePrice : R;
  numberOfPurchases : Z;
  period : R;
  reviewQuality : R;
  returnProbability : R
}.

(** Market simulation constants. *)
Definition ASSUMED_USERS : R := 100.
Definition ASSUMED_BURN_RATE : R := 0.3.
Definition INITIAL_GLOBAL_MINTED : R := 10000.

(** [DEFAULT_SYSTEM_PARAMS]. *)
Definition DEFAULT_SYSTEM_PARAMS : SystemParams := {|
  CB_base := 0.05;
  alpha := 0.01;
  beta := 0.3;
  gamma := 0.5;
  P0 := 1.0;
  k := 0.0001;
  discount_base := 0.1;
  theta := 0.006;
  burn_cap := 1000000;
  access_fee := 10;
  user_cap := 10000;
  t_launch := 0
|}.

(** The initial state of the form ([useState<UserInputs>]). *)
Definition initialUserInputs : UserInputs := {|
  purchasePrice := 10000;
  numberOfPurchases := 7;
  period := 1;
  reviewQuality := 0.8;
  returnProbability := 0.1
|}.

(** ** Formula library *)

Definition calculateCashbackPercent (t : R) (params : SystemParams) : R :=
  Rmax 0 (CB_base params * (1 - alpha params * (t - t_launch params))).

Definition calculateQualityFactor
    (returnProbability reviewQuality : R) (params : SystemParams) : R :=
  1 + beta params * (1 - returnProbability) * reviewQuality.

Definition calculateDiminishingFactor
    (totalMintedUser : R) (params : SystemParams) : R :=
  exp (- gamma params * (totalMintedUser / user_cap params)).

Definition calculateTokenPrice (totalMinted : R) (params : SystemParams) : R :=
  P0 params * (1 + k params * totalMinted ^ 2).

Definition calculateDiscountPercent (burnedYear : R) (params : SystemParams) : R :=
  Rmax 0 (discount_base params
          * (1 - theta params * (burnedYear / burn_cap params))).

(** ** The counting loop

    [for (let i = 0; i < n; i++) body], run on a state [s].  The counter
    starts at [i], the test [i < n] is made before every round, and [fuel]
    bounds the number of rounds; [Z.to_nat (n - i)] rounds are enough
    (lemma [for_loop_fuel_enough]), so the callers give [Z.to_nat n] from
    [i = 0]. *)
Fixpoint for_loop {S : Type} (fuel : nat) (i n : Z)
    (body : Z -> S -> S) (s : S) : S :=
  match fuel with
  | O => s
  | Datatypes.S fuel' =>
      if (i <? n)%Z then for_loop fuel' (i + 1)%Z n body (body i s) else s
  end.

(** ** Mint accumulator *)

Module MintResult.
Record t : Type := mk {
  totalMintedUser : R;
  newGlobalTotalMinted : R;
  dfFirst : R;
  dfLast : R;
  mintedPerPurchaseAvg : R
}.
End MintResult.

(** The two variables the loop of [calculateMintedTokens] assigns. *)
Record MintState : Type := mkMintState {
  currentGlobalTotalMinted : R;
  loopTotalMintedUser : R
}.

(** One round of the loop of [calculateMintedTokens]; [t] is
    [Math.floor(inputs.period)]. *)
Definition mintBody (inputs : UserInputs) (params : SystemParams) (t : R)
    (i : Z) (st : MintState) : MintState :=
  let CB_percent := calculateCashbackPercent t params in
  let QFi :=
    calculateQualityFactor (returnProbability inputs) (reviewQuality inputs)
      params in
  let DF := calculateDiminishingFactor (loopTotalMintedUser st) params in
  let Ptoken := calculateTokenPrice (currentGlobalTotalMinted st) params in
  let mintedForPurchase :=
    (purchasePrice inputs * CB_percent * QFi * DF) / Ptoken in
  {| currentGlobalTotalMinted := currentGlobalTotalMinted st + mintedForPurchase;
     loopTotalMintedUser := loopTotalMintedUser st + mintedForPurchase |}.

Definition mintLoop (inputs : UserInputs) (params : SystemParams)
    (globalTotalMinted : R) : MintState :=
  let t := IZR (Zfloor (period inputs)) in
  for_loop (Z.to_nat (numberOfPurchases inputs)) 0%Z (numberOfPurchases inputs)
    (mintBody inputs params t)
    {| currentGlobalTotalMinted := globalTotalMinted;
       loopTotalMintedUser := 0 |}.

Definition calculateMintedTokens (inputs : UserInputs) (params : SystemParams)
    (globalTotalMinted : R) : MintResult.t :=
  let dfFirst := calculateDiminishingFactor 0 params in
  let st := mintLoop inputs params globalTotalMinted in
  let totalMintedUser := loopTotalMintedUser st in
  let dfLast := calculateDiminishingFactor totalMintedUser params in
  let mintedPerPurchaseAvg := totalMintedUser / IZR (numberOfPurchases inputs) in
  {| MintResult.totalMintedUser := totalMintedUser;
     MintResult.newGlobalTotalMinted := currentGlobalTotalMinted st;
     MintResult.dfFirst := dfFirst;
     MintResult.dfLast := dfLast;
     MintResult.mintedPerPurchaseAvg := mintedPerPurchaseAvg |}.

(** The earlier variant of the component returns only the two loop
    variables; its loop is the same. *)
Definition calculateMintedTokens_pair (inputs : UserInputs)
    (params : SystemParams) (globalTotalMinted : R) : R * R :=
  let st := mintLoop inputs params globalTotalMinted in
  (loopTotalMintedUser st, currentGlobalTotalMinted st).

(** ** Burn accumulator *)

Definition burnBody (inputs : UserInputs) (discount_percent tokenPrice : R)
    (i : Z) (totalBurned : R) : R :=
  let discountInRubles := purchasePrice inputs * discount_percent in
  let burnedForPurchase := discountInRubles / tokenPrice in
  totalBurned + burnedForPurchase.

Definition calculateBurnedTokens (inputs : UserInputs) (params : SystemParams)
    (burnedYear tokenPrice : R) : R :=
  let discount_percent := calculateDiscountPercent burnedYear params in
  let totalBurned :=
    for_loop (Z.to_nat (numberOfPurchases inputs)) 0%Z
      (numberOfPurchases inputs)
      (burnBody inputs discount_percent tokenPrice) 0 in
  totalBurned + access_fee params.

(** ** Result composition *)

Module Breakdown.
Record t : Type := mk {
  t_period : R;
  CB_percent : R;
  QF : R;
  dfFirst : R;
  dfLast : R;
  mintedPerPurchaseAvg : R;
  capUsage : R;
  discount_percent : R;
  discountRubTotal : R;
  burnDiscountTokens : R;
  accessFeeTokens : R;
  netValueRub : R;
  effectiveCashbackRub : R;
  effectiveDiscountRub : R;
  initialGlobalTotalMinted : R;
  assumedUsers : R;
  assumedBurnRate : R;
  newGlobalTotalMinted : R
}.
End Breakdown.

Record Results : Type := mkResults {
  totalMintedUser : R;
  tokenPrice : R;
  totalBurned : R;
  burnDestroyed : R;
  burnRedistributed : R;
  netTokens : R;
  breakdown : Breakdown.t
}.

(** The body of the [useMemo] that computes [results]. *)
Definition results (userInputs : UserInputs) (systemParams : SystemParams)
    : Results :=
  let initialGlobalTotalMinted := INITIAL_GLOBAL_MINTED in
  let t := IZR (Zfloor (period userInputs)) in
  let mintResult :=
    calculateMintedTokens userInputs systemParams initialGlobalTotalMinted in
  let totalMintedUser := MintResult.totalMintedUser mintResult in
  let newGlobalTotalMinted :=
    initialGlobalTotalMinted + (totalMintedUser * ASSUMED_USERS) in
  let tokenPrice := calculateTokenPrice newGlobalTotalMinted systemParams in
  let assumedMarketBurnedYearTokens :=
    totalMintedUser * ASSUMED_BURN_RATE * ASSUMED_USERS in
  let totalBurned :=
    calculateBurnedTokens userInputs systemParams
      assumedMarketBurnedYearTokens tokenPrice in
  let burnDestroyed := totalBurned * 0.7 in
  let burnRedistributed := totalBurned * 0.3 in
  let CB_percent := calculateCashbackPercent t systemParams in
  let QF :=
    calculateQualityFactor (returnProbability userInputs)
      (reviewQuality userInputs) systemParams in
  let capUsage := totalMintedUser / user_cap systemParams in
  let discount_percent :=
    calculateDiscountPercent assumedMarketBurnedYearTokens systemParams in
  let discountRubTotal :=
    purchasePrice userInputs * IZR (numberOfPurchases userInputs)
    * discount_percent in
  let burnDiscountTokens := discountRubTotal / tokenPrice in
  let accessFeeTokens := access_fee systemParams in
  let netValueRub := (totalMintedUser - totalBurned) * tokenPrice in
  let effectiveCashbackRub := totalMintedUser * tokenPrice in
  let effectiveDiscountRub := totalBurned * tokenPrice in
  {| totalMintedUser := totalMintedUser;
     tokenPrice := tokenPrice;
     totalBurned := totalBurned;
     burnDestroyed := burnDestroyed;
     burnRedistributed := burnRedistributed;
     netTokens := totalMintedUser - totalBurned;
     breakdown :=
       {| Breakdown.t_period := t;
          Breakdown.CB_percent := CB_percent;
          Breakdown.QF := QF;
          Breakdown.dfFirst := MintResult.dfFirst mintResult;
          Breakdown.dfLast := MintResult.dfLast mintResult;
          Breakdown.mintedPerPurchaseAvg :=
            MintResult.mintedPerPurchaseAvg mintResult;
          Breakdown.capUsage := capUsage;
          Breakdown.discount_percent := discount_percent;
          Breakdown.discountRubTotal := discountRubTotal;
          Breakdown.burnDiscountTokens := burnDiscountTokens;
          Breakdown.accessFeeTokens := accessFeeTokens;
          Breakdown.netValueRub := netValueRub;
          Breakdown.effectiveCashbackRub := effectiveCashbackRub;
          Breakdown.effectiveDiscountRub := effectiveDiscountRub;
          Breakdown.initialGlobalTotalMinted := initialGlobalTotalMinted;
          Breakdown.assumedUsers := ASSUMED_USERS;
          Breakdown.assumedBurnRate := ASSUMED_BURN_RATE;
          Breakdown.newGlobalTotalMinted := newGlobalTotalMinted |} |}.

(** ** The same accumulator, worded as the design note does

    A fold over the purchase index [i = 0 .. numberOfPurchases - 1] that
    carries the pair (userCumulativeMint, globalCumulativeMint). *)
Definition mintFoldStep (inputs : UserInputs) (params : SystemParams)
    (acc : R * R) (i : nat) : R * R :=
  let '(userCumulativeMint, globalCumulativeMint) := acc in
  let cb := calculateCashbackPercent (IZR (Zfloor (period inputs))) params in
  let qf :=
    calculateQualityFactor (returnProbability inputs) (reviewQuality inputs)
      params in
  let df := calculateDiminishingFactor userCumulativeMint params in
  let price := calculateTokenPrice globalCumulativeMint params in
  let minted := purchasePrice inputs * cb * qf * df / price in
  (userCumulativeMint + minted, globalCumulativeMint + minted).

Definition mintFold (inputs : UserInputs) (params : SystemParams)
    (globalTotalMintedBefore : R) : R * R :=
  fold_left (mintFoldStep inputs params)
    (seq 0 (Z.to_nat (numberOfPurchases inputs)))
    (0, globalTotalMintedBefore).

(** The loop state read as the accumulator of the fold. *)
Definition pairOfMintState (st : MintState) : R * R :=
  (loopTotalMintedUser st, currentGlobalTotalMinted st).

(** ** Domains

    The domain the specification documents for [SystemParams]: every
    field but [t_launch] is a non-negative real.  It only appears as a
    hypothesis. *)
Definition paramsInDomain (params : SystemParams) : Prop :=
  0 <= CB_base params /\ 0 <= alpha params /\ 0 <= beta params
  /\ 0 <= gamma params /\ 0 <= P0 params /\ 0 <= k params
  /\ 0 <= discount_base params /\ 0 <= theta params
  /\ 0 <= burn_cap params /\ 0 <= access_fee params
  /\ 0 <= user_cap params.

(** The inputs [validateInput] accepts, field by field. *)
Definition inputsInDomain (inputs : UserInputs) : Prop :=
  0 <= purchasePrice inputs
  /\ (1 <= numberOfPurchases inputs)%Z
  /\ 0 <= period inputs
  /\ 0 <= reviewQuality inputs <= 1
  /\ 0 <= returnProbability inputs <= 1.

(** [{ ...inputs, reviewQuality: q }]. *)
Definition withReviewQuality (inputs : UserInputs) (q : R) : UserInputs :=
  {| purchasePrice := purchasePrice inputs;
     numberOfPurchases := numberOfPurchases inputs;
     period := period inputs;
     reviewQuality := q;
     returnProbability := returnProbability inputs |}.

(** ** The mint loop seen from the user's total

    The loop keeps [currentGlobalTotalMinted = globalTotalMinted +
    totalMintedUser], so one round is a function of [totalMintedUser]
    alone: with [c] the product purchasePrice * CB_percent * QFi, which no
    round changes, the round maps the total [m] to [mintStep params c g0 m]
    (lemma [mintLoop_iter]). *)
Definition mintCoefficient (inputs : UserInputs) (params : SystemParams) : R :=
  purchasePrice inputs
  * calculateCashbackPercent (IZR (Zfloor (period inputs))) params
  * calculateQualityFactor (returnProbability inputs) (reviewQuality inputs)
      params.

Definition mintStep (params : SystemParams) (c g0 m : R) : R :=
  m + c * calculateDiminishingFactor m params
      / calculateTokenPrice (g0 + m) params.

(** ** Sample values

    [{ ...inputs, numberOfPurchases: n }] and
    [{ ...params, access_fee: fee }]. *)
Definition withNumberOfPurchases (inputs : UserInputs) (n : Z) : UserInputs :=
  {| purchasePrice := purchasePrice inputs;
     numberOfPurchases := n;
     period := period inputs;
     reviewQuality := reviewQuality inputs;
     returnProbability := returnProbability inputs |}.

Definition withAccessFee (params : SystemParams) (fee : R) : SystemParams :=
  {| CB_base := CB_base params;
     alpha := alpha params;
     beta := beta params;
     gamma := gamma params;
     P0 := P0 params;
     k := k params;
     discount_base := discount_base params;
     theta := theta params;
     burn_cap := burn_cap params;
     access_fee := fee;
     user_cap := user_cap params;
     t_launch := t_launch params |}.

(** ** The form: fields, validation and the two handlers *)

(** [keyof UserInputs]. *)
Module InputField.
Inductive t : Type :=
| purchasePrice
| numberOfPurchases
| period
| reviewQuality
| returnProbability.

Definition eqb (a b : t) : bool :=
  match a, b with
  | purchasePrice, purchasePrice => true
  | numberOfPurchases, numberOfPurchases => true
  | period, period => true
  | reviewQuality, reviewQuality => true
  | returnProbability, returnProbability => true
  | _, _ => false
  end.
End InputField.

(** A number that [parseInt] or [parseFloat] returns is a real or NaN;
    [None] is NaN.  Every comparison with NaN is false. *)
Definition isNaN (value : option R) : bool :=
  match value with
  | None => true
  | Some _ => false
  end.

Definition numLt (value : option R) (bound : R) : bool :=
  match value with
  | Some v => if Rlt_dec v bound then true else false
  | None => false
  end.

Definition numGt (value : option R) (bound : R) : bool :=
  match value with
  | Some v => if Rlt_dec bound v then true else false
  | None => false
  end.

(** [Number.isInteger]. *)
Definition isInteger (value : option R) : bool :=
  match value with
  | Some v => if Req_dec_T (IZR (Zfloor v)) v then true else false
  | None => false
  end.

(** [validateInput]: the message of the error, or [None] for [null]. *)
Definition validateInput (field : InputField.t) (value : option R)
    : option string :=
  match field with
  | InputField.purchasePrice =>
      if (isNaN value || numLt value 0)%bool
      then Some "Цена покупки должна быть положительным числом"%string
      else None
  | InputField.numberOfPurchases =>
      if (isNaN value || numLt value 1 || negb (isInteger value))%bool
      then Some "Количество покупок должно быть целым числом не менее 1"%string
      else None
  | InputField.period =>
      if (isNaN value || numLt value 0)%bool
      then Some "Период должен быть неотрицательным числом"%string
      else None
  | InputField.reviewQuality =>
      if (isNaN value || numLt value 0 || numGt value 1)%bool
      then Some "Качество отзывов должно быть числом от 0 до 1"%string
      else None
  | InputField.returnProbability =>
      if (isNaN value || numLt value 0 || numGt value 1)%bool
      then Some "Вероятность возврата должна быть числом от 0 до 1"%string
      else None
  end.

(** Truthiness of a [string | null]: [null] and the empty string are
    falsy. *)
Definition truthy (error : option string) : bool :=
  match error with
  | Some EmptyString => false
  | Some _ => true
  | None => false
  end.

(** [error || undefined]. *)
Definition orUndefined (error : option string) : option string :=
  if truthy error then error else None.

(** The state of the component the handlers write: [userInputs] and
    [errors] (a partial record from field to message). *)
Record FormState : Type := mkFormState {
  userInputs : UserInputs;
  errors : InputField.t -> option string
}.

(** [{ ...prev, [field]: error }]. *)
Definition setError (field : InputField.t) (error : option string)
    (prev : InputField.t -> option string) : InputField.t -> option string :=
  fun f => if InputField.eqb f field then error else prev f.

(** [userInputs[field]]. *)
Definition getField (field : InputField.t) (inputs : UserInputs) : R :=
  match field with
  | InputField.purchasePrice => purchasePrice inputs
  | InputField.numberOfPurchases => IZR (numberOfPurchases inputs)
  | InputField.period => period inputs
  | InputField.reviewQuality => reviewQuality inputs
  | InputField.returnProbability => returnProbability inputs
  end.

(** [{ ...prev, [field]: value }].  The field [numberOfPurchases] holds an
    integer: the handlers store there only a value that passed
    [Number.isInteger] or came out of [Math.floor], on which [Zfloor]
    changes nothing (lemmas [getField_setField_same] and
    [correctedValue_integer]). *)
Definition setField (field : InputField.t) (value : R) (prev : UserInputs)
    : UserInputs :=
  match field with
  | InputField.purchasePrice =>
      {| purchasePrice := value;
         numberOfPurchases := numberOfPurchases prev;
         period := period prev;
         reviewQuality := reviewQuality prev;
         returnProbability := returnProbability prev |}
  | InputField.numberOfPurchases =>
      {| purchasePrice := purchasePrice prev;
         numberOfPurchases := Zfloor value;
         period := period prev;
         reviewQuality := reviewQuality prev;
         returnProbability := returnProbability prev |}
  | InputField.period =>
      {| purchasePrice := purchasePrice prev;
         numberOfPurchases := numberOfPurchases prev;
         period := value;
         reviewQuality := reviewQuality prev;
         returnProbability := returnProbability prev |}
  | InputField.reviewQuality =>
      {| purchasePrice := purchasePrice prev;
         numberOfPurchases := numberOfPurchases prev;
         period := period prev;
         reviewQuality := value;
         returnProbability := returnProbability prev |}
  | InputField.returnProbability =>
      {| purchasePrice := purchasePrice prev;
         numberOfPurchases := numberOfPurchases prev;
         period := period prev;
         reviewQuality := reviewQuality prev;
         returnProbability := value |}
  end.

Definition isEmptyString (value : string) : bool :=
  match value with
  | EmptyString => true
  | _ => false
  end.

(** [handleInputChange].  The two parsers of the language are arguments:
    [parseInt value 10] and [parseFloat value]. *)
Definition handleInputChange
    (parseInt : string -> Z -> option R) (parseFloat : string -> option R)
    (field : InputField.t) (value : string) (st : FormState) : FormState :=
  if isEmptyString value then
    {| userInputs := userInputs st;
       errors := setError field None (errors st) |}
  else
    let numValue :=
      match field with
      | InputField.numberOfPurchases => parseInt value 10%Z
      | _ => parseFloat value
      end in
    let error := validateInput field numValue in
    let errors' := setError field (orUndefined error) (errors st) in
    match numValue with
    | Some v =>
        if (negb (truthy error) && negb (isNaN numValue))%bool then
          {| userInputs := setField field v (userInputs st);
             errors := errors' |}
        else {| userInputs := userInputs st; errors := errors' |}
    | None => {| userInputs := userInputs st; errors := errors' |}
    end.

(** The [switch] of [handleBlur] that computes [correctedValue]. *)
Definition correctedValue (field : InputField.t) (currentValue : R) : R :=
  match field with
  | InputField.reviewQuality | InputField.returnProbability =>
      Rmax 0 (Rmin 1 currentValue)
  | InputField.numberOfPurchases => Rmax 1 (IZR (Zfloor currentValue))
  | InputField.purchasePrice | InputField.period => Rmax 0 currentValue
  end.

(** [handleBlur]. *)
Definition handleBlur (field : InputField.t) (st : FormState) : FormState :=
  let currentValue := getField field (userInputs st) in
  let error := validateInput field (Some currentValue) in
  if truthy error then
    {| userInputs :=
         setField field (correctedValue field currentValue) (userInputs st);
       errors := setError field None (errors st) |}
  else st.

(** The calls the inputs of the earlier variant of the component make:
    every input calls [handleInputChange] on change and [handleBlur] on
    blur. *)
Inductive FormEvent : Type :=
| Change (field : InputField.t) (value : string)
| Blur (field : InputField.t).

Definition formStep
    (parseInt : string -> Z -> option R) (parseFloat : string -> option R)
    (st : FormState) (ev : FormEvent) : FormState :=
  match ev with
  | Change field value => handleInputChange parseInt parseFloat field value st
  | Blur field => handleBlur field st
  end.

Definition formRun
    (parseInt : string -> Z -> option R) (parseFloat : string -> option R)
    (events : list FormEvent) (st : FormState) : FormState :=
  fold_left (formStep parseInt parseFloat) events st.

(** The initial state of the earlier variant of the form. *)
Definition initialUserInputs_earlier : UserInputs := {|
  purchasePrice := 1000;
  numberOfPurchases := 5;
  period := 1;
  reviewQuality := 0.8;
  returnProbability := 0.1
|}.

(** [useState({})] for the errors. *)
Definition noErrors : InputField.t -> option string := fun _ => None.

(** ** Chart data *)

Module BondingPoint.
Record t : Type := mk {
  totalMinted : R;
  price : R
}.
End BondingPoint.

(** The loop of [bondingCurveData]:
    [for (let totalMinted = 0; totalMinted <= 100000; totalMinted += 1000)],
    from the counter [totalMinted], pushing to [data]. *)
Fixpoint bondingCurveLoop (fuel : nat) (totalMinted : Z)
    (systemParams : SystemParams) (data : list BondingPoint.t)
    : list BondingPoint.t :=
  match fuel with
  | O => data
  | Datatypes.S fuel' =>
      if (totalMinted <=? 100000)%Z then
        let price := calculateTokenPrice (IZR totalMinted) systemParams in
        bondingCurveLoop fuel' (totalMinted + 1000)%Z systemParams
          (data ++ [ {| BondingPoint.totalMinted := IZR totalMinted;
                        BondingPoint.price := price |} ])
      else data
  end.

(** [bondingCurveData]; 101 rounds pass the test (lemma
    [bondingCurveLoop_fuel_enough]). *)
Definition bondingCurveData (systemParams : SystemParams)
    : list BondingPoint.t :=
  bondingCurveLoop 101 0%Z systemParams [].

Module EmissionPoint.
Record t : Type := mk {
  period : R;
  minted : R;
  price : R
}.
End EmissionPoint.

(** The two variables the loops of [emissionChartData] assign. *)
Module EmissionState.
Record t : Type := mk {
  cumulativeMinted : R;
  globalTotalMinted : R
}.
End EmissionState.

(** One round of the inner loop of [emissionChartData]: as in
    [calculateMintedTokens], but the global total grows by the minted
    amount times [ASSUMED_USERS]. *)
Definition emissionMintBody (userInputs : UserInputs)
    (systemParams : SystemParams) (t : R) (i : Z) (st : EmissionState.t)
    : EmissionState.t :=
  let CB_percent := calculateCashbackPercent t systemParams in
  let QFi :=
    calculateQualityFactor (returnProbability userInputs)
      (reviewQuality userInputs) systemParams in
  let DF :=
    calculateDiminishingFactor (EmissionState.cumulativeMinted st)
      systemParams in
  let Ptoken :=
    calculateTokenPrice (EmissionState.globalTotalMinted st) systemParams in
  let mintedForPurchase :=
    (purchasePrice userInputs * CB_percent * QFi * DF) / Ptoken in
  {| EmissionState.cumulativeMinted :=
       EmissionState.cumulativeMinted st + mintedForPurchase;
     EmissionState.globalTotalMinted :=
       EmissionState.globalTotalMinted st + mintedForPurchase * ASSUMED_USERS |}.

(** The outer loop of [emissionChartData]:
    [for (let t = 0; t <= maxPeriod; t++)], from the counter [t]. *)
Fixpoint emissionLoop (fuel : nat) (t : Z) (maxPeriod : R) (userPeriod : Z)
    (userInputs : UserInputs) (systemParams : SystemParams)
    (st : EmissionState.t) (data : list EmissionPoint.t)
    : list EmissionPoint.t :=
  match fuel with
  | O => data
  | Datatypes.S fuel' =>
      if Rle_dec (IZR t) maxPeriod then
        let st' :=
          if ((t =? userPeriod)%Z
              && (if Rle_dec (IZR t) maxPeriod then true else false))%bool
          then
            for_loop (Z.to_nat (numberOfPurchases userInputs)) 0%Z
              (numberOfPurchases userInputs)
              (emissionMintBody userInputs systemParams (IZR t)) st
          else st in
        let price :=
          calculateTokenPrice (EmissionState.globalTotalMinted st')
            systemParams in
        emissionLoop fuel' (t + 1)%Z maxPeriod userPeriod userInputs
          systemParams st'
          (data ++ [ {| EmissionPoint.period := IZR t;
                        EmissionPoint.minted :=
                          EmissionState.cumulativeMinted st';
                        EmissionPoint.price := price |} ])
      else data
  end.

(** [emissionChartData] (earlier variant of the component).  The counter
    passes the test for [t = 0 .. floor(maxPeriod)], so
    [floor(maxPeriod) + 1] rounds are enough. *)
Definition emissionChartData (userInputs : UserInputs)
    (systemParams : SystemParams) : list EmissionPoint.t :=
  let maxPeriod := Rmax (period userInputs) 10 in
  let userPeriod := Zfloor (period userInputs) in
  emissionLoop (Z.to_nat (Zfloor maxPeriod + 1)) 0%Z maxPeriod userPeriod
    userInputs systemParams
    {| EmissionState.cumulativeMinted := 0;
       EmissionState.globalTotalMinted := INITIAL_GLOBAL_MINTED |}
    [].

(** One round of the inner loop of [emissionChartData] seen from the
    cumulative total [m], the global total being
    [g0 + m * ASSUMED_USERS]. *)
Definition emissionStep (params : SystemParams) (c g0 m : R) : R :=
  m + c * calculateDiminishingFactor m params
      / calculateTokenPrice (g0 + m * ASSUMED_USERS) params.

(** [{ ...inputs, purchasePrice: p }] and [{ ...inputs, period: p }]. *)
Definition withPurchasePrice (inputs : UserInputs) (p : R) : UserInputs :=
  setField InputField.purchasePrice p inputs.

Definition withPeriod (inputs : UserInputs) (p : R) : UserInputs :=
  setField InputField.period p inputs.

(** The points the two chart loops push, named for the statements
    below. *)
Definition bondingPointAt (systemParams : SystemParams) (totalMinted : Z)
    : BondingPoint.t :=
  {| BondingPoint.totalMinted := IZR totalMinted;
     BondingPoint.price := calculateTokenPrice (IZR totalMinted) systemParams |}.

Definition emissionPointAt (systemParams : SystemParams) (t : Z)
    (st : EmissionState.t) : EmissionPoint.t :=
  {| EmissionPoint.period := IZR t;
     EmissionPoint.minted := EmissionState.cumulativeMinted st;
     EmissionPoint.price :=
       calculateTokenPrice (EmissionState.globalTotalMinted st) systemParams |}.

Definition emissionInitialState : EmissionState.t :=
  {| EmissionState.cumulativeMinted := 0;
     EmissionState.globalTotalMinted := INITIAL_GLOBAL_MINTED |}.

(** The inner loop of [emissionChartData], run at the period [t] on the
    state [st]. *)
Definition emissionPurchases (userInputs : UserInputs)
    (systemParams : SystemParams) (t : Z) (st : EmissionState.t)
    : EmissionState.t :=
  for_loop (Z.to_nat (numberOfPurchases userInputs)) 0%Z
    (numberOfPurchases userInputs)
    (emissionMintBody userInputs systemParams (IZR t)) st.

(** The state the inner loop of [emissionChartData] leaves when it runs,
    at [t = floor(period)]. *)
Definition emissionFinalState (userInputs : UserInputs)
    (systemParams : SystemParams) : EmissionState.t :=
  for_loop (Z.to_nat (numberOfPurchases userInputs)) 0%Z
    (numberOfPurchases userInputs)
    (emissionMintBody userInputs systemParams
       (IZR (Zfloor (period userInputs))))
    emissionInitialState.

(** ** The mint accumulator over doubles

    The same functions on binary64 numbers, operation by operation and in
    the order of the source.  [x ** 2] is the rounded product [x * x].
    [Math.exp] is approximated by the implementation; the language fixes
    only its value at a zero argument, [exp(+0) = exp(-0) = 1], and that is
    all this model knows of it: where the exponential is needed at another
    argument the result is [None]. *)
Module Double.
Import PrimFloat FloatOps SpecFloat.
#[local] Set Warnings "-inexact-float".
Local Open Scope float_scope.

Record SystemParams : Type := mkSystemParams {
  CB_base : float;
  alpha : float;
  beta : float;
  gamma : float;
  P0 : float;
  k : float;
  discount_base : float;
  theta : float;
  burn_cap : float;
  access_fee : float;
  user_cap : float;
  t_launch : float
}.

Record UserInputs : Type := mkUserInputs {
  purchasePrice : float;
  numberOfPurchases : Z;
  period : float;
  reviewQuality : float;
  returnProbability : float
}.

Definition INITIAL_GLOBAL_MINTED : float := 10000.

Definition DEFAULT_SYSTEM_PARAMS : SystemParams := {|
  CB_base := 0.05;
  alpha := 0.01;
  beta := 0.3;
  gamma := 0.5;
  P0 := 1.0;
  k := 0.0001;
  discount_base := 0.1;
  theta := 0.006;
  burn_cap := 1000000;
  access_fee := 10;
  user_cap := 10000;
  t_launch := 0
|}.

(** [{ ...params, gamma: g }]. *)
Definition withGamma (params : SystemParams) (g : float) : SystemParams :=
  {| CB_base := CB_base params;
     alpha := alpha params;
     beta := beta params;
     gamma := g;
     P0 := P0 params;
     k := k params;
     discount_base := discount_base params;
     theta := theta params;
     burn_cap := burn_cap params;
     access_fee := access_fee params;
     user_cap := user_cap params;
     t_launch := t_launch params |}.

Definition isNegativeZero (x : float) : bool :=
  andb (is_zero x) (1 / x <? 0).

(** [Math.max] of two numbers: NaN if either is NaN, and [+0] is larger
    than [-0]. *)
Definition Math_max (a b : float) : float :=
  if is_nan a then a
  else if is_nan b then b
  else if a <? b then b
  else if b <? a then a
  else if isNegativeZero a then b else a.

(** An integer as a double, exact below 2^53 in absolute value. *)
Definition ofZ (z : Z) : float :=
  if (z <? 0)%Z then - of_uint63 (Uint63.of_Z (- z))
  else of_uint63 (Uint63.of_Z z).

(** [Math.floor]: a zero, an infinity, NaN and a number without
    fractional bits are returned as they are. *)
Definition Math_floor (x : float) : float :=
  match Prim2SF x with
  | S754_finite s m e =>
      if (0 <=? e)%Z then x
      else
        let d := (2 ^ (- e))%Z in
        let q := (Zpos m / d)%Z in
        if s then
          if (Zpos m mod d =? 0)%Z then ofZ (- q) else ofZ (- (q + 1))
        else ofZ q
  | _ => x
  end.

(** [Math.exp], as far as the language fixes it. *)
Definition Math_exp (x : float) : option float :=
  if is_zero x then Some 1 else None.

Definition calculateCashbackPercent (t : float) (params : SystemParams)
    : float :=
  Math_max 0 (CB_base params * (1 - alpha params * (t - t_launch params))).

Definition calculateQualityFactor
    (returnProbability reviewQuality : float) (params : SystemParams)
    : float :=
  1 + beta params * (1 - returnProbability) * reviewQuality.

Definition calculateDiminishingFactor
    (totalMintedUser : float) (params : SystemParams) : option float :=
  Math_exp ((- gamma params) * (totalMintedUser / user_cap params)).

Definition calculateTokenPrice (totalMinted : float) (params : SystemParams)
    : float :=
  P0 params * (1 + k params * (totalMinted * totalMinted)).

Record MintState : Type := mkMintState {
  currentGlobalTotalMinted : float;
  loopTotalMintedUser : float
}.

(** One round of the loop of [calculateMintedTokens]; the state is [None]
    once a round needed an exponential the model does not know. *)
Definition mintBody (inputs : UserInputs) (params : SystemParams) (t : float)
    (i : Z) (state : option MintState) : option MintState :=
  match state with
  | None => None
  | Some st =>
      let CB_percent := calculateCashbackPercent t params in
      let QFi :=
        calculateQualityFactor (returnProbability inputs)
          (reviewQuality inputs) params in
      match calculateDiminishingFactor (loopTotalMintedUser st) params with
      | None => None
      | Some DF =>
          let Ptoken :=
            calculateTokenPrice (currentGlobalTotalMinted st) params in
          let mintedForPurchase :=
            (purchasePrice inputs * CB_percent * QFi * DF) / Ptoken in
          Some {| currentGlobalTotalMinted :=
                    currentGlobalTotalMinted st + mintedForPurchase;
                  loopTotalMintedUser :=
                    loopTotalMintedUser st + mintedForPurchase |}
      end
  end.

Record MintResult : Type := mkMintResult {
  totalMintedUser : float;
  newGlobalTotalMinted : float;
  dfFirst : float;
  dfLast : float;
  mintedPerPurchaseAvg : float
}.

Definition calculateMintedTokens (inputs : UserInputs) (params : SystemParams)
    (globalTotalMinted : float) : option MintResult :=
  let t := Math_floor (period inputs) in
  match calculateDiminishingFactor 0 params with
  | None => None
  | Some dfFirst =>
      match
        for_loop (Z.to_nat (numberOfPurchases inputs)) 0%Z
          (numberOfPurchases inputs) (mintBody inputs params t)
          (Some {| currentGlobalTotalMinted := globalTotalMinted;
                   loopTotalMintedUser := 0 |})
      with
      | None => None
      | Some st =>
          let totalMintedUser := loopTotalMintedUser st in
          match calculateDiminishingFactor totalMintedUser params with
          | None => None
          | Some dfLast =>
              let mintedPerPurchaseAvg :=
                totalMintedUser / ofZ (numberOfPurchases inputs) in
              Some {| totalMintedUser := totalMintedUser;
                      newGlobalTotalMinted := currentGlobalTotalMinted st;
                      dfFirst := dfFirst;
                      dfLast := dfLast;
                      mintedPerPurchaseAvg := mintedPerPurchaseAvg |}
          end
      end
  end.

(** [results.totalMintedUser]: the total of [calculateMintedTokens] from
    [INITIAL_GLOBAL_MINTED]. *)
Definition resultsTotalMintedUser (userInputs : UserInputs)
    (systemParams : SystemParams) : option float :=
  match calculateMintedTokens userInputs systemParams INITIAL_GLOBAL_MINTED with
  | Some mintResult => Some (totalMintedUser mintResult)
  | None => None
  end.

(** Inputs of the form with five purchases of 4828876 at period 1 and a
    return probability of 0.25, for a review quality [q]. *)
Definition sampleInputs (q : float) : UserInputs :=
  {| purchasePrice := 4828876;
     numberOfPurchases := 5;
     period := 1;
     reviewQuality := q;
     returnProbability := 0.25 |}.
End Double.

(** ** The counting loop: what it computes *)

Section ForLoop.
Context {S : Type}.
Variables (n : Z) (body : Z -> S -> S).

(** From counter [a] with exactly the rounds that are left, the loop is
    the left fold of the body over the remaining indices. *)
Lemma for_loop_fold_from (fuel a : nat) (s : S) :
  fuel = Z.to_nat (n - Z.of_nat a) ->
  for_loop fuel (Z.of_nat a) n body s
  = fold_left (fun acc j => body (Z.of_nat j) acc) (seq a fuel) s.
Proof.
  revert a s.
  induction fuel as [|fuel IH]; intros a s Hfuel; [reflexivity|].
  cbn [for_loop seq fold_left].
  assert (Hlt : (Z.of_nat a <? n)%Z = true) by (apply Z.ltb_lt; lia).
  rewrite Hlt.
  replace (Z.of_nat a + 1)%Z with (Z.of_nat (Datatypes.S a)) by lia.
  apply IH. lia.
Qed.

Lemma for_loop_fold (s : S) :
  for_loop (Z.to_nat n) 0%Z n body s
  = fold_left (fun acc j => body (Z.of_nat j) acc) (seq 0 (Z.to_nat n)) s.
Proof.
  apply (for_loop_fold_from (Z.to_nat n) 0 s).
  cbn [Z.of_nat]. f_equal. lia.
Qed.

(** More fuel than [Z.to_nat n] changes nothing: the test [i < n] ends
    the loop. *)
Lemma for_loop_stops (fuel : nat) (i : Z) (s : S) :
  (n <= i)%Z -> for_loop fuel i n body s = s.
Proof.
  intros Hge. destruct fuel as [|fuel]; [reflexivity|].
  cbn [for_loop].
  assert (Hnlt : (i <? n)%Z = false) by (apply Z.ltb_ge; lia).
  now rewrite Hnlt.
Qed.

Lemma for_loop_fuel_enough (extra fuel : nat) (i : Z) (s : S) :
  fuel = Z.to_nat (n - i) ->
  for_loop (fuel + extra) i n body s = for_loop fuel i n body s.
Proof.
  revert i s.
  induction fuel as [|fuel IH]; intros i s Hfuel.
  - cbn [Nat.add for_loop]. apply for_loop_stops. lia.
  - cbn [Nat.add for_loop].
    destruct (i <? n)%Z; [|reflexivity].
    apply IH. lia.
Qed.
End ForLoop.

(** A body that does not read the counter is simply iterated. *)
Lemma for_loop_iter {S : Type} (n : Z) (f : S -> S) (s : S) :
  for_loop (Z.to_nat n) 0%Z n (fun _ => f) s = Nat.iter (Z.to_nat n) f s.
Proof.
  rewrite for_loop_fold.
  generalize (seq 0 (Z.to_nat n)) (eq_sym (length_seq (Z.to_nat n) 0)).
  generalize (Z.to_nat n) as m.
  intros m l; revert m s.
  induction l as [|j l IH]; intros m s Hlen; cbn in Hlen; subst m.
  - reflexivity.
  - cbn [fold_left length]. rewrite Nat.iter_succ_r. now apply IH.
Qed.

(** ** Mint accumulator: the loop as the fold of the design note *)

Lemma mintBody_step (inputs : UserInputs) (params : SystemParams)
    (i : Z) (j : nat) (st : MintState) :
  pairOfMintState
    (mintBody inputs params (IZR (Zfloor (period inputs))) i st)
  = mintFoldStep inputs params (pairOfMintState st) j.
Proof. reflexivity. Qed.

Lemma mintLoop_fold (inputs : UserInputs) (params : SystemParams) (g0 : R) :
  pairOfMintState (mintLoop inputs params g0) = mintFold inputs params g0.
Proof.
  unfold mintLoop, mintFold. rewrite for_loop_fold.
  change (0, g0) with
    (pairOfMintState
       {| currentGlobalTotalMinted := g0; loopTotalMintedUser := 0 |}).
  generalize {| currentGlobalTotalMinted := g0; loopTotalMintedUser := 0 |}.
  generalize (seq 0 (Z.to_nat (numberOfPurchases inputs))).
  intros l; induction l as [|j l IH]; intros st; [reflexivity|].
  cbn [fold_left]. rewrite IH. f_equal.
Qed.

(** C1. [calculateMintedTokens] is the sequential fold over the purchase
    index [i = 0 .. numberOfPurchases - 1] that carries the pair
    (userCumulativeMint, globalCumulativeMint), started at
    [(0, globalTotalMintedBefore)], each round minting
    purchasePrice * CashbackPercent(floor(period)) * QualityFactor
    * DiminishingFactor(userCumulativeMint) / TokenPrice(globalCumulativeMint)
    and adding it to both components; [mintedPerPurchaseAvg] is the total
    divided by [numberOfPurchases].  The earlier variant of the function,
    which returns only the pair, is the same fold. *)
Theorem calculateMintedTokens_is_fold
    (inputs : UserInputs) (params : SystemParams) (globalTotalMintedBefore : R) :
  let r := calculateMintedTokens inputs params globalTotalMintedBefore in
  let acc := mintFold inputs params globalTotalMintedBefore in
  MintResult.totalMintedUser r = fst acc
  /\ MintResult.newGlobalTotalMinted r = snd acc
  /\ MintResult.mintedPerPurchaseAvg r
     = fst acc / IZR (numberOfPurchases inputs)
  /\ calculateMintedTokens_pair inputs params globalTotalMintedBefore = acc.
Proof.
  cbv zeta.
  pose proof (mintLoop_fold inputs params globalTotalMintedBefore) as Hfold.
  unfold calculateMintedTokens, calculateMintedTokens_pair.
  cbn [MintResult.totalMintedUser MintResult.newGlobalTotalMinted
       MintResult.mintedPerPurchaseAvg].
  rewrite <- Hfold. unfold pairOfMintState. cbn [fst snd]. auto.
Qed.

(** ** Facts of real arithmetic used below *)

Lemma Rinv_nonneg (x : R) : 0 <= x -> 0 <= / x.
Proof.
  intros [Hpos | Hzero].
  - left. now apply Rinv_0_lt_compat.
  - subst x. rewrite Rinv_0. lra.
Qed.

Lemma exp_decay_lower (a m d : R) :
  exp (- (a * m)) * (1 - a * d) <= exp (- (a * (m + d))).
Proof.
  replace (- (a * (m + d))) with (- (a * m) + - (a * d)) by ring.
  rewrite exp_plus.
  apply Rmult_le_compat_l; [left; apply exp_pos|].
  pose proof (exp_ineq1_le (- (a * d))). lra.
Qed.

Lemma exp_decay_upper (x : R) : exp (- x) * (1 + x) <= 1.
Proof.
  pose proof (exp_ineq1_le x) as H.
  pose proof (exp_pos (- x)) as Hp.
  assert (Hinv : exp (- x) * exp x = 1)
    by (rewrite <- exp_plus, Rplus_opp_l; apply exp_0).
  nra.
Qed.

(** ** Formula library: signs and monotonicity *)

Lemma calculateCashbackPercent_nonneg (t : R) (params : SystemParams) :
  0 <= calculateCashbackPercent t params.
Proof. apply Rmax_l. Qed.

Lemma calculateDiscountPercent_nonneg (burnedYear : R) (params : SystemParams) :
  0 <= calculateDiscountPercent burnedYear params.
Proof. apply Rmax_l. Qed.

Lemma calculateQualityFactor_ge_1 (rp rq : R) (params : SystemParams) :
  0 <= beta params -> rp <= 1 -> 0 <= rq ->
  1 <= calculateQualityFactor rp rq params.
Proof.
  intros Hb Hrp Hrq. unfold calculateQualityFactor.
  assert (0 <= beta params * (1 - rp)) by nra. nra.
Qed.

Lemma calculateQualityFactor_mono (rp q1 q2 : R) (params : SystemParams) :
  0 <= beta params -> rp <= 1 -> q1 <= q2 ->
  calculateQualityFactor rp q1 params <= calculateQualityFactor rp q2 params.
Proof.
  intros Hb Hrp Hq. unfold calculateQualityFactor.
  assert (0 <= beta params * (1 - rp)) by nra. nra.
Qed.

Lemma calculateDiminishingFactor_pos (m : R) (params : SystemParams) :
  0 < calculateDiminishingFactor m params.
Proof. apply exp_pos. Qed.

Lemma calculateDiminishingFactor_0 (params : SystemParams) :
  calculateDiminishingFactor 0 params = 1.
Proof.
  unfold calculateDiminishingFactor.
  replace (- gamma params * (0 / user_cap params)) with 0
    by (unfold Rdiv; ring).
  apply exp_0.
Qed.

Lemma calculateDiminishingFactor_antitone (m1 m2 : R) (params : SystemParams) :
  0 <= gamma params -> 0 <= user_cap params -> m1 <= m2 ->
  calculateDiminishingFactor m2 params <= calculateDiminishingFactor m1 params.
Proof.
  intros Hg Hcap Hm. unfold calculateDiminishingFactor.
  pose proof (Rinv_nonneg _ Hcap) as Hinv.
  assert (Harg : - gamma params * (m2 / user_cap params)
                 <= - gamma params * (m1 / user_cap params)).
  { unfold Rdiv.
    assert (0 <= gamma params * / user_cap params) by nra. nra. }
  destruct Harg as [Hlt | Heq].
  - left. now apply exp_increasing.
  - rewrite Heq. lra.
Qed.

Lemma calculateTokenPrice_nonneg (g : R) (params : SystemParams) :
  0 <= P0 params -> 0 <= k params -> 0 <= calculateTokenPrice g params.
Proof.
  intros HP Hk. unfold calculateTokenPrice.
  pose proof (pow2_ge_0 g). apply Rmult_le_pos; nra.
Qed.

Lemma calculateTokenPrice_pos (g : R) (params : SystemParams) :
  0 < P0 params -> 0 <= k params -> 0 < calculateTokenPrice g params.
Proof.
  intros HP Hk. unfold calculateTokenPrice.
  pose proof (pow2_ge_0 g). apply Rmult_lt_0_compat; nra.
Qed.

Lemma calculateTokenPrice_mono (g1 g2 : R) (params : SystemParams) :
  0 <= P0 params -> 0 <= k params -> 0 <= g1 -> g1 <= g2 ->
  calculateTokenPrice g1 params <= calculateTokenPrice g2 params.
Proof.
  intros HP Hk Hg1 Hg. unfold calculateTokenPrice.
  assert (Hsq : g1 ^ 2 <= g2 ^ 2) by nra.
  apply Rmult_le_compat_l; [assumption|]. nra.
Qed.

Lemma calculateTokenPrice_strict_mono (g1 g2 : R) (params : SystemParams) :
  0 < P0 params -> 0 < k params -> 0 <= g1 -> g1 < g2 ->
  calculateTokenPrice g1 params < calculateTokenPrice g2 params.
Proof.
  intros HP Hk Hg1 Hg. unfold calculateTokenPrice.
  assert (Hsq : g1 ^ 2 < g2 ^ 2) by nra.
  apply Rmult_lt_compat_l; [assumption|]. nra.
Qed.

(** ** The mint loop as the iteration of [mintStep] *)

Lemma mintBody_mintStep (inputs : UserInputs) (params : SystemParams)
    (g0 : R) (i : Z) (st : MintState) :
  currentGlobalTotalMinted st = g0 + loopTotalMintedUser st ->
  let st' := mintBody inputs params (IZR (Zfloor (period inputs))) i st in
  loopTotalMintedUser st'
  = mintStep params (mintCoefficient inputs params) g0 (loopTotalMintedUser st)
  /\ currentGlobalTotalMinted st' = g0 + loopTotalMintedUser st'.
Proof.
  intros Hinv. cbv zeta. unfold mintBody, mintStep, mintCoefficient.
  cbn [loopTotalMintedUser currentGlobalTotalMinted].
  rewrite Hinv. split; unfold Rdiv; ring.
Qed.

Lemma mintLoop_iter (inputs : UserInputs) (params : SystemParams) (g0 : R) :
  let st := mintLoop inputs params g0 in
  loopTotalMintedUser st
  = Nat.iter (Z.to_nat (numberOfPurchases inputs))
      (mintStep params (mintCoefficient inputs params) g0) 0
  /\ currentGlobalTotalMinted st = g0 + loopTotalMintedUser st.
Proof.
  cbv zeta. unfold mintLoop.
  set (t := IZR (Zfloor (period inputs))).
  change (mintBody inputs params t)
    with (fun _ : Z => mintBody inputs params t 0%Z).
  rewrite for_loop_iter.
  induction (Z.to_nat (numberOfPurchases inputs)) as [|j [IHu IHg]].
  - cbn. split; ring.
  - rewrite !Nat.iter_succ.
    destruct (mintBody_mintStep inputs params g0 0%Z _ IHg) as [Hu Hg].
    fold t in Hu, Hg. split; [|exact Hg].
    rewrite Hu. now rewrite IHu.
Qed.

Lemma results_totalMintedUser (inputs : UserInputs) (params : SystemParams) :
  totalMintedUser (results inputs params)
  = Nat.iter (Z.to_nat (numberOfPurchases inputs))
      (mintStep params (mintCoefficient inputs params) INITIAL_GLOBAL_MINTED) 0.
Proof.
  unfold results. cbn [totalMintedUser].
  unfold calculateMintedTokens. cbn [MintResult.totalMintedUser].
  apply mintLoop_iter.
Qed.

Lemma mintCoefficient_nonneg (inputs : UserInputs) (params : SystemParams) :
  0 <= beta params -> 0 <= purchasePrice inputs ->
  returnProbability inputs <= 1 -> 0 <= reviewQuality inputs ->
  0 <= mintCoefficient inputs params.
Proof.
  intros Hb Hp Hrp Hrq. unfold mintCoefficient.
  pose proof (calculateCashbackPercent_nonneg
                (IZR (Zfloor (period inputs))) params).
  pose proof (calculateQualityFactor_ge_1 _ _ params Hb Hrp Hrq).
  apply Rmult_le_pos; [apply Rmult_le_pos; assumption|lra].
Qed.

(** What one round adds is not negative. *)
Lemma mintStep_increases (params : SystemParams) (c g0 m : R) :
  0 <= P0 params -> 0 <= k params -> 0 <= c ->
  m <= mintStep params c g0 m.
Proof.
  intros HP Hk Hc. unfold mintStep.
  pose proof (calculateDiminishingFactor_pos m params) as Hdf.
  pose proof (Rinv_nonneg _ (calculateTokenPrice_nonneg (g0 + m) params HP Hk)).
  unfold Rdiv.
  assert (0 <= c * calculateDiminishingFactor m params) by nra.
  nra.
Qed.

Lemma mintStep_iter_nonneg (params : SystemParams) (c g0 : R) (j : nat) :
  0 <= P0 params -> 0 <= k params -> 0 <= c ->
  0 <= Nat.iter j (mintStep params c g0) 0.
Proof.
  intros HP Hk Hc. induction j as [|j IH]; [cbn; lra|rewrite Nat.iter_succ].
  pose proof (mintStep_increases params c g0
                (Nat.iter j (mintStep params c g0) 0) HP Hk Hc).
  lra.
Qed.

Lemma mintStep_iter_pos (params : SystemParams) (c g0 : R) (j : nat) :
  0 < P0 params -> 0 <= k params -> 0 < c ->
  0 < Nat.iter (Datatypes.S j) (mintStep params c g0) 0.
Proof.
  intros HP Hk Hc. rewrite Nat.iter_succ.
  set (m := Nat.iter j (mintStep params c g0) 0).
  assert (Hm : 0 <= m) by (apply mintStep_iter_nonneg; lra).
  unfold mintStep.
  pose proof (calculateDiminishingFactor_pos m params) as Hdf.
  pose proof (Rinv_0_lt_compat _ (calculateTokenPrice_pos (g0 + m) params HP Hk)).
  unfold Rdiv.
  assert (0 < c * calculateDiminishingFactor m params) by nra.
  nra.
Qed.

(** ** One round is monotone past the first purchase

    A larger total lowers what the next round adds (the diminishing factor
    falls, the price rises), so [mintStep] need not be monotone everywhere.
    It is on the totals the loop reaches: after the first purchase the
    total is at least the first mint, and from there the loss on the added
    amount never exceeds the gain on the total. *)

Lemma poly_bound (kk g0 m m' : R) :
  0 <= kk -> 0 <= g0 -> 0 <= m -> m <= m' ->
  m * (1 + kk * g0 ^ 2) * (kk * (2 * g0 + m + m'))
  <= (1 + kk * (g0 + m) ^ 2) * (1 + kk * (g0 + m') ^ 2).
Proof.
  intros Hk Hg Hm Hmm.
  set (u := g0 + m). set (u' := g0 + m').
  assert (Hu : 0 <= u) by (unfold u; lra).
  assert (Huu : u <= u') by (unfold u, u'; lra).
  assert (H1 : m * (u + u') <= u ^ 2 + u' ^ 2) by (unfold u, u' in *; nra).
  assert (H2 : 2 * (g0 ^ 2 * m) <= u ^ 3).
  { unfold u.
    assert (0 <= g0 ^ 3) by (apply pow_le; lra).
    assert (0 <= m ^ 3) by (apply pow_le; lra).
    assert (0 <= g0 * m ^ 2) by nra.
    assert (0 <= g0 ^ 2 * m) by nra.
    nra. }
  assert (H3 : g0 ^ 2 * m * (u + u') <= u ^ 2 * u' ^ 2).
  { assert (0 <= g0 ^ 2 * m) by nra.
    assert (g0 ^ 2 * m * (u + u') <= g0 ^ 2 * m * (2 * u')) by nra.
    assert (2 * (g0 ^ 2 * m) * u' <= u ^ 3 * u') by nra.
    assert (u ^ 3 * u' <= u ^ 2 * u' ^ 2).
    { assert (0 <= u ^ 2 * u') by nra. nra. }
    nra. }
  replace (2 * g0 + m + m') with (u + u') by (unfold u, u'; ring).
  assert (0 <= kk * kk) by nra.
  assert (kk * (m * (u + u')) <= kk * (u ^ 2 + u' ^ 2)) by nra.
  assert (kk * kk * (g0 ^ 2 * m * (u + u'))
          <= kk * kk * (u ^ 2 * u' ^ 2)) by nra.
  nra.
Qed.

Lemma step_mono_raw (a p kk g0 c m m' : R) :
  0 <= a -> 0 <= p -> 0 <= kk -> 0 <= g0 -> 0 <= c -> 0 <= m ->
  c * p <= m * (1 + kk * g0 ^ 2) -> m <= m' ->
  m + c * exp (- (a * m)) * (p * / (1 + kk * (g0 + m) ^ 2))
  <= m' + c * exp (- (a * m')) * (p * / (1 + kk * (g0 + m') ^ 2)).
Proof.
  intros Ha Hp Hk Hg Hc Hm Hcp Hmm.
  set (d := m' - m). assert (Hd : 0 <= d) by (unfold d; lra).
  replace m' with (m + d) by (unfold d; ring).
  set (E := exp (- (a * m))). set (E' := exp (- (a * (m + d)))).
  set (D := 1 + kk * (g0 + m) ^ 2).
  set (D' := 1 + kk * (g0 + (m + d)) ^ 2).
  set (K0 := 1 + kk * g0 ^ 2) in *.
  assert (HE : 0 < E) by apply exp_pos.
  assert (HE' : 0 < E') by apply exp_pos.
  assert (HEE' : E * (1 - a * d) <= E') by apply exp_decay_lower.
  assert (HEm : E * (1 + a * m) <= 1) by apply exp_decay_upper.
  assert (HD : 1 <= D)
    by (unfold D; pose proof (pow2_ge_0 (g0 + m)); nra).
  assert (HD' : 1 <= D')
    by (unfold D'; pose proof (pow2_ge_0 (g0 + (m + d))); nra).
  assert (HK0 : 1 <= K0) by (unfold K0; pose proof (pow2_ge_0 g0); nra).
  assert (HK0D' : K0 <= D').
  { unfold K0, D'. assert (g0 ^ 2 <= (g0 + (m + d)) ^ 2) by nra. nra. }
  assert (HDD : D' - D = d * (kk * (2 * g0 + m + (m + d))))
    by (unfold D, D'; ring).
  assert (Hpoly : m * K0 * (kk * (2 * g0 + m + (m + d))) <= D * D')
    by (apply poly_bound; lra).
  set (W := kk * (2 * g0 + m + (m + d))) in *.
  assert (HW : 0 <= W) by (unfold W; nra).
  assert (Hkey : c * p * (E * D' - E' * D) <= d * (D * D')).
  { assert (H1 : E * D' - E' * D <= E * d * (W + a * D)).
    { assert (E * (1 - a * d) * D <= E' * D) by nra. nra. }
    assert (H2 : c * p * (E * D' - E' * D) <= c * p * (E * d * (W + a * D))).
    { apply Rmult_le_compat_l; [nra|exact H1]. }
    assert (H3 : 0 <= E * d * (W + a * D)).
    { apply Rmult_le_pos; [nra|]. nra. }
    assert (H4 : c * p * (E * d * (W + a * D))
                 <= m * K0 * (E * d * (W + a * D))).
    { apply Rmult_le_compat_r; assumption. }
    assert (H5 : m * K0 * (W + a * D) <= D * D' * (1 + a * m)).
    { assert (m * K0 * (a * D) <= D * D' * (a * m)).
      { assert (0 <= m * a * D) by (apply Rmult_le_pos; nra). nra. }
      nra. }
    assert (H6 : m * K0 * (W + a * D) * E <= D * D').
    { assert (m * K0 * (W + a * D) * E <= D * D' * (1 + a * m) * E)
        by (apply Rmult_le_compat_r; lra).
      assert (0 <= D * D') by nra.
      nra. }
    assert (H7 : m * K0 * (E * d * (W + a * D)) <= d * (D * D')).
    { replace (m * K0 * (E * d * (W + a * D)))
        with (d * (m * K0 * (W + a * D) * E)) by ring.
      apply Rmult_le_compat_l; assumption. }
    lra. }
  assert (HDi : D * / D = 1) by (apply Rinv_r; lra).
  assert (HDi' : D' * / D' = 1) by (apply Rinv_r; lra).
  assert (HiD : 0 < / D) by (apply Rinv_0_lt_compat; lra).
  assert (HiD' : 0 < / D') by (apply Rinv_0_lt_compat; lra).
  assert (Hfin : c * p * (E * D' - E' * D) * (/ D * / D') <= d).
  { assert (Hscaled : c * p * (E * D' - E' * D) * (/ D * / D')
                      <= d * (D * D') * (/ D * / D')).
    { apply Rmult_le_compat_r; [nra|exact Hkey]. }
    replace (d * (D * D') * (/ D * / D'))
      with (d * (D * / D) * (D' * / D')) in Hscaled by ring.
    rewrite HDi, HDi' in Hscaled. lra. }
  replace (c * p * (E * D' - E' * D) * (/ D * / D'))
    with (c * E * (p * / D) * (D' * / D') - c * E' * (p * / D') * (D * / D))
    in Hfin by ring.
  rewrite HDi, HDi' in Hfin. lra.
Qed.

(** [mintStep] with the divisions written as products. *)
Lemma mintStep_raw (params : SystemParams) (c g0 m : R) :
  mintStep params c g0 m
  = m + c * exp (- (gamma params * / user_cap params * m))
        * (/ P0 params * / (1 + k params * (g0 + m) ^ 2)).
Proof.
  unfold mintStep, calculateDiminishingFactor, calculateTokenPrice, Rdiv.
  rewrite Rinv_mult.
  replace (- gamma params * (m * / user_cap params))
    with (- (gamma params * / user_cap params * m)) by ring.
  ring.
Qed.

Lemma mintStep_mono_total (params : SystemParams) (c g0 m m' : R) :
  0 <= gamma params -> 0 <= user_cap params ->
  0 <= P0 params -> 0 <= k params ->
  0 <= g0 -> 0 <= c -> 0 <= m ->
  c * / P0 params <= m * (1 + k params * g0 ^ 2) -> m <= m' ->
  mintStep params c g0 m <= mintStep params c g0 m'.
Proof.
  intros Hg Hcap HP Hk Hg0 Hc Hm Hfirst Hmm.
  rewrite !mintStep_raw.
  apply step_mono_raw; try assumption.
  - pose proof (Rinv_nonneg _ Hcap). nra.
  - now apply Rinv_nonneg.
Qed.

Lemma mintStep_mono_coefficient (params : SystemParams) (c1 c2 g0 m : R) :
  0 <= P0 params -> 0 <= k params -> c1 <= c2 ->
  mintStep params c1 g0 m <= mintStep params c2 g0 m.
Proof.
  intros HP Hk Hc. unfold mintStep, Rdiv.
  pose proof (calculateDiminishingFactor_pos m params) as Hdf.
  pose proof (Rinv_nonneg _ (calculateTokenPrice_nonneg (g0 + m) params HP Hk)).
  assert (c1 * calculateDiminishingFactor m params
          <= c2 * calculateDiminishingFactor m params) by nra.
  nra.
Qed.

(** After [j + 1] rounds the total is monotone in the coefficient, and the
    total of the smaller coefficient is at least its first mint. *)
Lemma mintStep_iter_mono (params : SystemParams) (c1 c2 g0 : R) (j : nat) :
  0 <= gamma params -> 0 <= user_cap params ->
  0 <= P0 params -> 0 <= k params ->
  0 <= g0 -> 0 <= c1 -> c1 <= c2 ->
  Nat.iter (Datatypes.S j) (mintStep params c1 g0) 0
  <= Nat.iter (Datatypes.S j) (mintStep params c2 g0) 0
  /\ c1 * / P0 params
     <= Nat.iter (Datatypes.S j) (mintStep params c1 g0) 0
        * (1 + k params * g0 ^ 2).
Proof.
  intros Hg Hcap HP Hk Hg0 Hc1 Hc.
  assert (HK0 : 1 <= 1 + k params * g0 ^ 2)
    by (pose proof (pow2_ge_0 g0); nra).
  induction j as [|j [IHle IHfirst]].
  - cbn [Nat.iter nat_rect]. rewrite !mintStep_raw.
    replace (g0 + 0) with g0 by ring.
    replace (- (gamma params * / user_cap params * 0)) with 0 by ring.
    rewrite exp_0.
    set (K0 := 1 + k params * g0 ^ 2) in *.
    assert (HiK : K0 * / K0 = 1) by (apply Rinv_r; lra).
    assert (HiK0 : 0 < / K0) by (apply Rinv_0_lt_compat; lra).
    pose proof (Rinv_nonneg _ HP) as HiP.
    split.
    + assert (c1 * (/ P0 params * / K0) <= c2 * (/ P0 params * / K0)).
      { apply Rmult_le_compat_r; [nra|assumption]. }
      lra.
    + replace ((0 + c1 * 1 * (/ P0 params * / K0)) * K0)
        with (c1 * / P0 params * (K0 * / K0)) by ring.
      rewrite HiK. lra.
  - rewrite (Nat.iter_succ (Datatypes.S j) R (mintStep params c1 g0)).
    rewrite (Nat.iter_succ (Datatypes.S j) R (mintStep params c2 g0)).
    set (m1 := Nat.iter (Datatypes.S j) (mintStep params c1 g0) 0) in *.
    set (m2 := Nat.iter (Datatypes.S j) (mintStep params c2 g0) 0) in *.
    assert (Hm1 : 0 <= m1) by (apply mintStep_iter_nonneg; lra).
    split.
    + apply Rle_trans with (mintStep params c1 g0 m2).
      * now apply mintStep_mono_total.
      * now apply mintStep_mono_coefficient.
    + pose proof (mintStep_increases params c1 g0 m1 HP Hk Hc1).
      nra.
Qed.

Lemma mintStep_iter_mono_le (params : SystemParams) (c1 c2 g0 : R) (j : nat) :
  0 <= gamma params -> 0 <= user_cap params ->
  0 <= P0 params -> 0 <= k params ->
  0 <= g0 -> 0 <= c1 -> c1 <= c2 ->
  Nat.iter j (mintStep params c1 g0) 0 <= Nat.iter j (mintStep params c2 g0) 0.
Proof.
  intros Hg Hcap HP Hk Hg0 Hc1 Hc.
  destruct j as [|j]; [cbn; lra|].
  now apply mintStep_iter_mono.
Qed.

(** ** The default values lie in the domains *)

Lemma DEFAULT_SYSTEM_PARAMS_inDomain : paramsInDomain DEFAULT_SYSTEM_PARAMS.
Proof. unfold paramsInDomain; cbn; repeat split; lra. Qed.

Lemma initialUserInputs_inDomain : inputsInDomain initialUserInputs.
Proof. unfold inputsInDomain; cbn; repeat split; try lra; lia. Qed.

Lemma Zfloor_1 : Zfloor 1 = 1%Z.
Proof. apply Zfloor_eq. lra. Qed.

Lemma initial_mintCoefficient_pos :
  0 < mintCoefficient initialUserInputs DEFAULT_SYSTEM_PARAMS.
Proof.
  unfold mintCoefficient, calculateCashbackPercent, calculateQualityFactor.
  cbn. rewrite Zfloor_1.
  pose proof (Rmax_r 0 (0.05 * (1 - 0.01 * (1 - 0)))) as Hcb.
  assert (0 < Rmax 0 (0.05 * (1 - 0.01 * (1 - 0)))) by lra.
  assert (0 < 10000 * Rmax 0 (0.05 * (1 - 0.01 * (1 - 0)))) by lra.
  apply Rmult_lt_0_compat; [assumption|lra].
Qed.

(** ** Burn accumulator: the sum of the loop *)

Lemma burn_iter (x s : R) (j : nat) :
  Nat.iter j (fun totalBurned => totalBurned + x) s = s + INR j * x.
Proof.
  induction j as [|j IH].
  - cbn. ring.
  - rewrite Nat.iter_succ, IH, S_INR. ring.
Qed.

Lemma calculateBurnedTokens_sum (inputs : UserInputs) (params : SystemParams)
    (burnedYear tokenPrice : R) :
  calculateBurnedTokens inputs params burnedYear tokenPrice
  = INR (Z.to_nat (numberOfPurchases inputs))
    * (purchasePrice inputs * calculateDiscountPercent burnedYear params
       / tokenPrice)
    + access_fee params.
Proof.
  unfold calculateBurnedTokens.
  change (burnBody inputs (calculateDiscountPercent burnedYear params) tokenPrice)
    with (fun (_ : Z) (totalBurned : R) =>
            totalBurned
            + purchasePrice inputs * calculateDiscountPercent burnedYear params
              / tokenPrice).
  rewrite for_loop_iter, burn_iter. ring.
Qed.

Lemma INR_to_nat (n : Z) : (0 <= n)%Z -> INR (Z.to_nat n) = IZR n.
Proof. intros Hn. rewrite INR_IZR_INZ. now rewrite Z2Nat.id. Qed.

Lemma calculateBurnedTokens_ge_fee (inputs : UserInputs) (params : SystemParams)
    (burnedYear tokenPrice : R) :
  0 <= purchasePrice inputs -> 0 <= tokenPrice ->
  access_fee params
  <= calculateBurnedTokens inputs params burnedYear tokenPrice.
Proof.
  intros Hp Htp. rewrite calculateBurnedTokens_sum.
  pose proof (calculateDiscountPercent_nonneg burnedYear params) as Hd.
  pose proof (Rinv_nonneg _ Htp) as Hinv.
  pose proof (pos_INR (Z.to_nat (numberOfPurchases inputs))) as Hn.
  assert (0 <= purchasePrice inputs
               * calculateDiscountPercent burnedYear params) by nra.
  assert (0 <= purchasePrice inputs
               * calculateDiscountPercent burnedYear params / tokenPrice)
    by (unfold Rdiv; nra).
  nra.
Qed.

(** C2. The burn accumulator returns
    numberOfPurchases * (purchasePrice * DiscountPercent(marketBurnedThisYear))
    / tokenPrice + access_fee: the discount percent and the token price are
    the same in every round and the access fee is added once, in tokens,
    without a division by the token price.  ([numberOfPurchases] is a
    count; a negative one runs no round.) *)
Theorem calculateBurnedTokens_closed_form
    (inputs : UserInputs) (params : SystemParams)
    (marketBurnedThisYear tokenPrice : R) :
  (0 <= numberOfPurchases inputs)%Z ->
  calculateBurnedTokens inputs params marketBurnedThisYear tokenPrice
  = IZR (numberOfPurchases inputs)
    * (purchasePrice inputs
       * calculateDiscountPercent marketBurnedThisYear params)
    / tokenPrice
    + access_fee params.
Proof.
  intros Hn. rewrite calculateBurnedTokens_sum, (INR_to_nat _ Hn).
  unfold Rdiv. ring.
Qed.

Lemma calculateBurnedTokens_closed_form_witness :
  calculateBurnedTokens initialUserInputs DEFAULT_SYSTEM_PARAMS 0 2
  = 7 * (10000 * calculateDiscountPercent 0 DEFAULT_SYSTEM_PARAMS) / 2 + 10.
Proof.
  apply (calculateBurnedTokens_closed_form
           initialUserInputs DEFAULT_SYSTEM_PARAMS 0 2).
  cbn. lia.
Defined.

(** C3. The [tokenPrice] of the results is the bonding curve at the
    approximated global supply INITIAL_GLOBAL_MINTED + totalMintedUser *
    ASSUMED_USERS; it is not the curve at the [newGlobalTotalMinted] the
    loop of the mint accumulator returns: for the initial inputs of the
    form the two prices differ. *)
Theorem results_tokenPrice_from_approximation :
  (forall (inputs : UserInputs) (params : SystemParams),
      tokenPrice (results inputs params)
      = calculateTokenPrice
          (INITIAL_GLOBAL_MINTED
           + totalMintedUser (results inputs params) * ASSUMED_USERS)
          params)
  /\ tokenPrice (results initialUserInputs DEFAULT_SYSTEM_PARAMS)
     <> calculateTokenPrice
          (MintResult.newGlobalTotalMinted
             (calculateMintedTokens initialUserInputs DEFAULT_SYSTEM_PARAMS
                INITIAL_GLOBAL_MINTED))
          DEFAULT_SYSTEM_PARAMS.
Proof.
  split; [reflexivity|].
  unfold results. cbn [tokenPrice].
  unfold calculateMintedTokens.
  cbn [MintResult.totalMintedUser MintResult.newGlobalTotalMinted].
  destruct (mintLoop_iter initialUserInputs DEFAULT_SYSTEM_PARAMS
              INITIAL_GLOBAL_MINTED) as [Hu Hg].
  rewrite Hg, Hu.
  change (Z.to_nat (numberOfPurchases initialUserInputs)) with 7%nat.
  pose proof (mintStep_iter_pos DEFAULT_SYSTEM_PARAMS
                (mintCoefficient initialUserInputs DEFAULT_SYSTEM_PARAMS)
                INITIAL_GLOBAL_MINTED 6) as Hpos.
  set (U := Nat.iter 7 _ 0) in *.
  assert (HU : 0 < U)
    by (apply Hpos; [cbn; lra|cbn; lra|apply initial_mintCoefficient_pos]).
  apply Rgt_not_eq, Rlt_gt.
  clearbody U. clear Hu Hg Hpos.
  apply calculateTokenPrice_strict_mono;
    unfold INITIAL_GLOBAL_MINTED, ASSUMED_USERS; cbn; lra.
Qed.

Lemma results_totalBurned_ge_fee (inputs : UserInputs) (params : SystemParams) :
  0 <= purchasePrice inputs -> 0 <= tokenPrice (results inputs params) ->
  access_fee params <= totalBurned (results inputs params).
Proof. intros Hp Htp. now apply calculateBurnedTokens_ge_fee. Qed.

Lemma results_tokenPrice_pos (inputs : UserInputs) (params : SystemParams) :
  0 < P0 params -> 0 <= k params -> 0 < tokenPrice (results inputs params).
Proof. intros HP Hk. now apply calculateTokenPrice_pos. Qed.

(** C4. The burn is split 70/30: the destroyed and the redistributed parts
    add up to the total burn, and when the total burn is positive they are
    0.7 and 0.3 of it. *)
Theorem burn_split (inputs : UserInputs) (params : SystemParams) :
  let r := results inputs params in
  burnDestroyed r + burnRedistributed r = totalBurned r
  /\ (0 < totalBurned r ->
      burnDestroyed r / totalBurned r = 0.7
      /\ burnRedistributed r / totalBurned r = 0.3).
Proof.
  cbv zeta. unfold results. cbn [burnDestroyed burnRedistributed totalBurned].
  set (b := calculateBurnedTokens _ _ _ _).
  split; [lra|]. intros Hb. split; field; lra.
Qed.

Lemma burn_split_witness :
  let r := results initialUserInputs DEFAULT_SYSTEM_PARAMS in
  0 < totalBurned r
  /\ burnDestroyed r / totalBurned r = 0.7
  /\ burnRedistributed r / totalBurned r = 0.3.
Proof.
  cbv zeta.
  assert (Hb : 0 < totalBurned (results initialUserInputs DEFAULT_SYSTEM_PARAMS)).
  { apply Rlt_le_trans with (access_fee DEFAULT_SYSTEM_PARAMS); [cbn; lra|].
    apply results_totalBurned_ge_fee; [cbn; lra|].
    left. apply results_tokenPrice_pos; cbn; lra. }
  split; [exact Hb|].
  exact (proj2 (burn_split initialUserInputs DEFAULT_SYSTEM_PARAMS) Hb).
Defined.

(** ** Monotonicity in the review quality *)

Lemma mintCoefficient_mono (inputs : UserInputs) (params : SystemParams)
    (q1 q2 : R) :
  0 <= beta params -> 0 <= purchasePrice inputs ->
  returnProbability inputs <= 1 -> q1 <= q2 ->
  mintCoefficient (withReviewQuality inputs q1) params
  <= mintCoefficient (withReviewQuality inputs q2) params.
Proof.
  intros Hb Hp Hrp Hq. unfold mintCoefficient.
  cbn [withReviewQuality purchasePrice period returnProbability reviewQuality].
  pose proof (calculateCashbackPercent_nonneg
                (IZR (Zfloor (period inputs))) params).
  pose proof (calculateQualityFactor_mono
                (returnProbability inputs) q1 q2 params Hb Hrp Hq).
  apply Rmult_le_compat_l; [apply Rmult_le_pos|]; assumption.
Qed.

Lemma calculateMintedTokens_mono_reviewQuality
    (inputs : UserInputs) (params : SystemParams) (g0 q1 q2 : R) :
  0 <= beta params -> 0 <= gamma params -> 0 <= user_cap params ->
  0 <= P0 params -> 0 <= k params -> 0 <= g0 ->
  0 <= purchasePrice inputs -> returnProbability inputs <= 1 ->
  0 <= q1 -> q1 <= q2 ->
  MintResult.totalMintedUser
    (calculateMintedTokens (withReviewQuality inputs q1) params g0)
  <= MintResult.totalMintedUser
       (calculateMintedTokens (withReviewQuality inputs q2) params g0).
Proof.
  intros Hb Hg Hcap HP Hk Hg0 Hp Hrp Hq1 Hq.
  unfold calculateMintedTokens. cbn [MintResult.totalMintedUser].
  rewrite (proj1 (mintLoop_iter (withReviewQuality inputs q1) params g0)).
  rewrite (proj1 (mintLoop_iter (withReviewQuality inputs q2) params g0)).
  cbn [withReviewQuality numberOfPurchases].
  apply mintStep_iter_mono_le; try assumption.
  - now apply mintCoefficient_nonneg.
  - now apply mintCoefficient_mono.
Qed.

Section DoubleOrder.
Import PrimFloat.
#[local] Set Warnings "-inexact-float".

(** C5, as stated, fails on the doubles the code computes with.  With the
    default parameters but gamma = 0 (no diminishing, so every exponential
    is [exp(-0) = 1]), five purchases of 4828876 at period 1 and a return
    probability of 0.25, raising the review quality from 0.33 to
    0.3300000000000002 lowers the total minted from 127.0790935280057 to
    127.07909352800567: the rounding of the five rounds reverses the
    order. *)
Lemma reviewQuality_order_lost_in_doubles :
  let params := Double.withGamma Double.DEFAULT_SYSTEM_PARAMS 0%float in
  PrimFloat.ltb 0.33%float 0.3300000000000002%float = true
  /\ Double.resultsTotalMintedUser (Double.sampleInputs 0.33%float) params
     = Some 127.0790935280057%float
  /\ Double.resultsTotalMintedUser
       (Double.sampleInputs 0.3300000000000002%float) params
     = Some 127.07909352800567%float
  /\ PrimFloat.ltb 127.07909352800567%float 127.0790935280057%float = true.
Proof.
  cbv zeta. repeat split; vm_compute; reflexivity.
Qed.
End DoubleOrder.

(** C5, amended.  In exact real arithmetic, that is without the rounding
    of the doubles, and with the parameters and the other inputs fixed in
    their domains, the total minted for the user does not decrease when
    the review quality increases: for [q1 <= q2] in [0,1], the total
    computed with [reviewQuality = q1] is at most the total computed with
    [reviewQuality = q2]. *)
Theorem totalMintedUser_monotone_in_reviewQuality
    (inputs : UserInputs) (params : SystemParams) (q1 q2 : R) :
  paramsInDomain params ->
  inputsInDomain (withReviewQuality inputs q1) ->
  inputsInDomain (withReviewQuality inputs q2) ->
  q1 <= q2 ->
  totalMintedUser (results (withReviewQuality inputs q1) params)
  <= totalMintedUser (results (withReviewQuality inputs q2) params).
Proof.
  intros (_ & _ & Hb & Hg & HP & Hk & _ & _ & _ & _ & Hcap)
         (Hp & _ & _ & [Hq1 _] & [_ Hrp]) _ Hq.
  cbn [withReviewQuality purchasePrice returnProbability reviewQuality]
    in Hp, Hq1, Hrp.
  apply (calculateMintedTokens_mono_reviewQuality
           inputs params INITIAL_GLOBAL_MINTED q1 q2); try assumption.
  unfold INITIAL_GLOBAL_MINTED. lra.
Qed.

Lemma totalMintedUser_monotone_in_reviewQuality_witness :
  totalMintedUser
    (results (withReviewQuality initialUserInputs 0.2) DEFAULT_SYSTEM_PARAMS)
  <= totalMintedUser
       (results (withReviewQuality initialUserInputs 0.9) DEFAULT_SYSTEM_PARAMS).
Proof.
  apply (totalMintedUser_monotone_in_reviewQuality
           initialUserInputs DEFAULT_SYSTEM_PARAMS 0.2 0.9).
  - exact DEFAULT_SYSTEM_PARAMS_inDomain.
  - unfold inputsInDomain; cbn; repeat split; try lra; lia.
  - unfold inputsInDomain; cbn; repeat split; try lra; lia.
  - lra.
Defined.

(** C6. In the documented domains (in particular numberOfPurchases >= 1
    and purchasePrice >= 0, which covers purchasePrice > 0) the diminishing
    factor at the user's final total, [dfLast], is at most the factor at a
    zero total, [dfFirst]; the breakdown of the results carries the same
    two values. *)
Theorem dfLast_le_dfFirst
    (inputs : UserInputs) (params : SystemParams) (globalTotalMinted : R) :
  paramsInDomain params ->
  inputsInDomain inputs ->
  let r := calculateMintedTokens inputs params globalTotalMinted in
  let b := breakdown (results inputs params) in
  MintResult.dfLast r <= MintResult.dfFirst r
  /\ Breakdown.dfLast b <= Breakdown.dfFirst b.
Proof.
  intros (_ & _ & Hb & Hg & HP & Hk & _ & _ & _ & _ & Hcap)
         (Hp & _ & _ & [Hrq _] & [_ Hrp]).
  cbv zeta.
  assert (Hgen : forall g0,
             MintResult.dfLast (calculateMintedTokens inputs params g0)
             <= MintResult.dfFirst (calculateMintedTokens inputs params g0)).
  { intros g0. unfold calculateMintedTokens.
    cbn [MintResult.dfLast MintResult.dfFirst].
    apply calculateDiminishingFactor_antitone; try assumption.
    rewrite (proj1 (mintLoop_iter inputs params g0)).
    apply mintStep_iter_nonneg; try assumption.
    now apply mintCoefficient_nonneg. }
  split; [apply Hgen|].
  unfold results. cbn [breakdown Breakdown.dfLast Breakdown.dfFirst].
  apply Hgen.
Qed.

Lemma dfLast_le_dfFirst_witness :
  let r :=
    calculateMintedTokens initialUserInputs DEFAULT_SYSTEM_PARAMS
      INITIAL_GLOBAL_MINTED in
  let b := breakdown (results initialUserInputs DEFAULT_SYSTEM_PARAMS) in
  MintResult.dfLast r <= MintResult.dfFirst r
  /\ Breakdown.dfLast b <= Breakdown.dfFirst b.
Proof.
  apply (dfLast_le_dfFirst initialUserInputs DEFAULT_SYSTEM_PARAMS
           INITIAL_GLOBAL_MINTED).
  - exact DEFAULT_SYSTEM_PARAMS_inDomain.
  - exact initialUserInputs_inDomain.
Defined.

(** C7. The token price is P0 * (1 + k * totalGlobalMinted^2); with
    k >= 0 (and a price scale P0 >= 0, as for every parameter) it does not
    decrease with the supply: for two supplies [0 <= g1 <= g2] the price
    at [g1] is at most the price at [g2]; and at a zero supply the default
    parameters give exactly P0. *)
Theorem calculateTokenPrice_monotone
    (params : SystemParams) (g1 g2 : R) :
  0 <= P0 params -> 0 <= k params -> 0 <= g1 -> g1 <= g2 ->
  calculateTokenPrice g1 params = P0 params * (1 + k params * g1 ^ 2)
  /\ calculateTokenPrice g1 params <= calculateTokenPrice g2 params
  /\ calculateTokenPrice 0 DEFAULT_SYSTEM_PARAMS = P0 DEFAULT_SYSTEM_PARAMS.
Proof.
  intros HP Hk Hg1 Hg.
  split; [reflexivity|]. split.
  - now apply calculateTokenPrice_mono.
  - unfold calculateTokenPrice. cbn. lra.
Qed.

Lemma calculateTokenPrice_monotone_witness :
  calculateTokenPrice 10000 DEFAULT_SYSTEM_PARAMS
  = P0 DEFAULT_SYSTEM_PARAMS * (1 + k DEFAULT_SYSTEM_PARAMS * 10000 ^ 2)
  /\ calculateTokenPrice 10000 DEFAULT_SYSTEM_PARAMS
     <= calculateTokenPrice 20000 DEFAULT_SYSTEM_PARAMS
  /\ calculateTokenPrice 0 DEFAULT_SYSTEM_PARAMS = P0 DEFAULT_SYSTEM_PARAMS.
Proof.
  apply (calculateTokenPrice_monotone DEFAULT_SYSTEM_PARAMS 10000 20000).
  - cbn. lra.
  - cbn. lra.
  - lra.
  - lra.
Defined.

(** ** No purchase at all *)

Lemma results_zero_purchases (inputs : UserInputs) (params : SystemParams) :
  numberOfPurchases inputs = 0%Z ->
  totalMintedUser (results inputs params) = 0
  /\ totalBurned (results inputs params) = access_fee params.
Proof.
  intros Hn. split.
  - rewrite results_totalMintedUser, Hn. reflexivity.
  - unfold results. cbn [totalBurned].
    rewrite calculateBurnedTokens_sum, Hn. cbn [Z.to_nat INR]. ring.
Qed.

(** C8, as stated, fails: with no purchase and a zero access fee, which the
    domain of the parameters allows, the net amount is zero and not
    negative. *)
Lemma zero_purchases_net_not_negative :
  let inputs := withNumberOfPurchases initialUserInputs 0 in
  let params := withAccessFee DEFAULT_SYSTEM_PARAMS 0 in
  numberOfPurchases inputs = 0%Z
  /\ paramsInDomain params
  /\ ~ netTokens (results inputs params) < 0.
Proof.
  cbv zeta. split; [reflexivity|]. split.
  - unfold paramsInDomain; cbn; repeat split; lra.
  - assert (Hnet : netTokens
                     (results (withNumberOfPurchases initialUserInputs 0)
                        (withAccessFee DEFAULT_SYSTEM_PARAMS 0)) = 0).
    { destruct (results_zero_purchases
                  (withNumberOfPurchases initialUserInputs 0)
                  (withAccessFee DEFAULT_SYSTEM_PARAMS 0) eq_refl)
        as [Hm Hb].
      change (netTokens
                (results (withNumberOfPurchases initialUserInputs 0)
                   (withAccessFee DEFAULT_SYSTEM_PARAMS 0)))
        with (totalMintedUser
                (results (withNumberOfPurchases initialUserInputs 0)
                   (withAccessFee DEFAULT_SYSTEM_PARAMS 0))
              - totalBurned
                  (results (withNumberOfPurchases initialUserInputs 0)
                     (withAccessFee DEFAULT_SYSTEM_PARAMS 0))).
      rewrite Hm, Hb. cbn. lra. }
    rewrite Hnet. lra.
Qed.

(** C8, amended.  With [numberOfPurchases = 0] the mint loop runs no round,
    so the total minted is 0; the burn loop runs no round either, so the
    total burned is the access fee; the net amount is minus the access fee,
    which is negative whenever the access fee is positive. *)
Theorem zero_purchases_results (inputs : UserInputs) (params : SystemParams) :
  numberOfPurchases inputs = 0%Z ->
  let r := results inputs params in
  totalMintedUser r = 0
  /\ totalBurned r = access_fee params
  /\ netTokens r = - access_fee params
  /\ (0 < access_fee params -> netTokens r < 0).
Proof.
  intros Hn. cbv zeta.
  destruct (results_zero_purchases inputs params Hn) as [Hm Hb].
  assert (Hnet : netTokens (results inputs params) = - access_fee params).
  { change (netTokens (results inputs params))
      with (totalMintedUser (results inputs params)
            - totalBurned (results inputs params)).
    rewrite Hm, Hb. ring. }
  repeat split; try assumption.
  intros Hfee. rewrite Hnet. lra.
Qed.

Lemma zero_purchases_results_witness :
  let r :=
    results (withNumberOfPurchases initialUserInputs 0) DEFAULT_SYSTEM_PARAMS in
  totalMintedUser r = 0 /\ totalBurned r = 10 /\ netTokens r < 0.
Proof.
  cbv zeta.
  destruct (zero_purchases_results
              (withNumberOfPurchases initialUserInputs 0)
              DEFAULT_SYSTEM_PARAMS eq_refl)
    as (Hm & Hb & _ & Hneg).
  split; [exact Hm|]. split; [exact Hb|].
  apply Hneg. cbn. lra.
Defined.

(** C9. The two computations of the burn for discounts agree: the
    breakdown's [burnDiscountTokens], computed in one shot as
    (purchasePrice * numberOfPurchases * discount_percent) / tokenPrice,
    plus [accessFeeTokens] is the [totalBurned] that the loop of
    [calculateBurnedTokens] sums round by round.  ([numberOfPurchases] is a
    count; the token price is not zero.) *)
Theorem burn_breakdown_agrees (inputs : UserInputs) (params : SystemParams) :
  (0 <= numberOfPurchases inputs)%Z ->
  tokenPrice (results inputs params) <> 0 ->
  let r := results inputs params in
  Breakdown.burnDiscountTokens (breakdown r)
  + Breakdown.accessFeeTokens (breakdown r)
  = totalBurned r.
Proof.
  intros Hn _. cbv zeta. unfold results.
  cbn [breakdown totalBurned Breakdown.burnDiscountTokens
       Breakdown.accessFeeTokens].
  rewrite calculateBurnedTokens_sum, (INR_to_nat _ Hn).
  unfold Rdiv. ring.
Qed.

Lemma burn_breakdown_agrees_witness :
  let r := results initialUserInputs DEFAULT_SYSTEM_PARAMS in
  Breakdown.burnDiscountTokens (breakdown r)
  + Breakdown.accessFeeTokens (breakdown r)
  = totalBurned r.
Proof.
  apply (burn_breakdown_agrees initialUserInputs DEFAULT_SYSTEM_PARAMS).
  - cbn. lia.
  - apply Rgt_not_eq, Rlt_gt. apply results_tokenPrice_pos; cbn; lra.
Defined.

(** C10. With a non-negative purchase price and a positive token price the
    total burned is at least the access fee: the discount percent is
    clamped at zero, so no round burns a negative amount; hence the net
    amount is at most the total minted minus the access fee. *)
Theorem totalBurned_ge_access_fee (inputs : UserInputs) (params : SystemParams) :
  0 <= purchasePrice inputs ->
  0 < tokenPrice (results inputs params) ->
  let r := results inputs params in
  access_fee params <= totalBurned r
  /\ netTokens r <= totalMintedUser r - access_fee params.
Proof.
  intros Hp Htp. cbv zeta.
  assert (Hfee : access_fee params <= totalBurned (results inputs params))
    by (apply results_totalBurned_ge_fee; lra).
  split; [exact Hfee|].
  change (netTokens (results inputs params))
    with (totalMintedUser (results inputs params)
          - totalBurned (results inputs params)).
  lra.
Qed.

Lemma totalBurned_ge_access_fee_witness :
  let r := results initialUserInputs DEFAULT_SYSTEM_PARAMS in
  access_fee DEFAULT_SYSTEM_PARAMS <= totalBurned r
  /\ netTokens r <= totalMintedUser r - access_fee DEFAULT_SYSTEM_PARAMS.
Proof.
  apply (totalBurned_ge_access_fee initialUserInputs DEFAULT_SYSTEM_PARAMS).
  - cbn. lra.
  - apply results_tokenPrice_pos; cbn; lra.
Defined.

(** ** Validation *)

Lemma numLt_Some (v bound : R) : numLt (Some v) bound = false <-> bound <= v.
Proof.
  unfold numLt. destruct (Rlt_dec v bound); split; intros H;
    try discriminate; try reflexivity; lra.
Qed.

Lemma numGt_Some (v bound : R) : numGt (Some v) bound = false <-> v <= bound.
Proof.
  unfold numGt. destruct (Rlt_dec bound v); split; intros H;
    try discriminate; try reflexivity; lra.
Qed.

Lemma isInteger_Some (v : R) : isInteger (Some v) = true <-> IZR (Zfloor v) = v.
Proof.
  unfold isInteger. destruct (Req_dec_T (IZR (Zfloor v)) v); split; intros H;
    try discriminate; try reflexivity; congruence.
Qed.

Lemma Zfloor_IZR (z : Z) : Zfloor (IZR z) = z.
Proof. apply Zfloor_eq. lra. Qed.

(** What [validateInput] accepts, field by field. *)
Lemma validateInput_accepts (field : InputField.t) (v : R) :
  validateInput field (Some v) = None
  <-> match field with
      | InputField.purchasePrice => 0 <= v
      | InputField.numberOfPurchases => 1 <= v /\ IZR (Zfloor v) = v
      | InputField.period => 0 <= v
      | InputField.reviewQuality => 0 <= v <= 1
      | InputField.returnProbability => 0 <= v <= 1
      end.
Proof.
  destruct field; cbn [validateInput isNaN orb].
  - rewrite <- numLt_Some. destruct (numLt (Some v) 0); split; intros H;
      try discriminate; reflexivity.
  - rewrite <- numLt_Some, <- isInteger_Some.
    destruct (numLt (Some v) 1), (isInteger (Some v)); cbn;
      split; try intros [H1 H2]; try intros H;
      try discriminate; try reflexivity; auto.
  - rewrite <- numLt_Some. destruct (numLt (Some v) 0); split; intros H;
      try discriminate; reflexivity.
  - rewrite <- numLt_Some, <- numGt_Some.
    destruct (numLt (Some v) 0), (numGt (Some v) 1); cbn;
      split; try intros [H1 H2]; try intros H;
      try discriminate; try reflexivity; auto.
  - rewrite <- numLt_Some, <- numGt_Some.
    destruct (numLt (Some v) 0), (numGt (Some v) 1); cbn;
      split; try intros [H1 H2]; try intros H;
      try discriminate; try reflexivity; auto.
Qed.

(** An error of [validateInput] is a message that is not empty, so it is
    truthy; no error is falsy. *)
Lemma validateInput_truthy (field : InputField.t) (value : option R) :
  truthy (validateInput field value) = true
  <-> validateInput field value <> None.
Proof.
  destruct field; cbn [validateInput];
    match goal with
    | |- context [if ?c then _ else _] => destruct c
    end; cbn; split; intros H; try discriminate; try reflexivity;
    now (exfalso; apply H).
Qed.

Lemma validateInput_NaN (field : InputField.t) :
  validateInput field None <> None.
Proof. destruct field; cbn; discriminate. Qed.

Lemma inputsInDomain_accepted (inputs : UserInputs) (field : InputField.t) :
  inputsInDomain inputs ->
  validateInput field (Some (getField field inputs)) = None.
Proof.
  unfold inputsInDomain. intros (Hp & Hn & Ht & Hq & Hr).
  apply validateInput_accepts. destruct field; cbn [getField]; auto.
  split; [now apply IZR_le|]. now rewrite Zfloor_IZR.
Qed.

Lemma accepted_inputsInDomain (inputs : UserInputs) :
  (forall field : InputField.t,
      validateInput field (Some (getField field inputs)) = None) ->
  inputsInDomain inputs.
Proof.
  intros H. unfold inputsInDomain.
  pose proof (proj1 (validateInput_accepts _ _) (H InputField.purchasePrice)) as Hp.
  pose proof (proj1 (validateInput_accepts _ _) (H InputField.numberOfPurchases)) as [Hn _].
  pose proof (proj1 (validateInput_accepts _ _) (H InputField.period)) as Ht.
  pose proof (proj1 (validateInput_accepts _ _) (H InputField.reviewQuality)) as Hq.
  pose proof (proj1 (validateInput_accepts _ _) (H InputField.returnProbability)) as Hr.
  cbn [getField] in *.
  repeat split; try tauto.
  now apply le_IZR.
Qed.

(** X1. [validateInput] accepts the value of every field exactly when the
    inputs are in the domain: purchasePrice >= 0, numberOfPurchases an
    integer >= 1, period >= 0, reviewQuality and returnProbability in
    [0,1]. *)
Theorem validateInput_accepts_domain (inputs : UserInputs) :
  inputsInDomain inputs
  <-> forall field : InputField.t,
        validateInput field (Some (getField field inputs)) = None.
Proof.
  split.
  - intros Hdom field. now apply inputsInDomain_accepted.
  - apply accepted_inputsInDomain.
Qed.

(** X2. NaN is refused for every field, and every refusal carries a
    message that is not empty (so the handlers' tests [if (error)] and
    [!error] see it). *)
Theorem validateInput_rejects_NaN (field : InputField.t) :
  exists message : string,
    validateInput field None = Some message
    /\ message <> EmptyString
    /\ forall value : option R,
         validateInput field value <> None ->
         validateInput field value = Some message.
Proof.
  destruct field; cbn [validateInput isNaN orb];
    eexists; (split; [reflexivity|]); (split; [discriminate|]);
    intros value;
    match goal with
    | |- context [if ?c then _ else _] => destruct c
    end; intros H; try reflexivity; now (exfalso; apply H).
Qed.

(** ** Reading and writing a field *)

Lemma InputField_eqb_eq (a b : InputField.t) :
  InputField.eqb a b = true <-> a = b.
Proof. destruct a, b; cbn; split; intros H; try discriminate; reflexivity. Qed.

Lemma InputField_eqb_refl (a : InputField.t) : InputField.eqb a a = true.
Proof. now apply InputField_eqb_eq. Qed.

Lemma InputField_eqb_neq (a b : InputField.t) :
  a <> b -> InputField.eqb a b = false.
Proof.
  intros H. destruct (InputField.eqb a b) eqn:E; [|reflexivity].
  now apply InputField_eqb_eq in E.
Qed.

Lemma setError_same (field : InputField.t) (e : option string)
    (prev : InputField.t -> option string) :
  setError field e prev field = e.
Proof. unfold setError. now rewrite InputField_eqb_refl. Qed.

Lemma setError_other (field f : InputField.t) (e : option string)
    (prev : InputField.t -> option string) :
  f <> field -> setError field e prev f = prev f.
Proof. intros H. unfold setError. now rewrite InputField_eqb_neq. Qed.

Lemma getField_setField_other (field f : InputField.t) (v : R)
    (inputs : UserInputs) :
  f <> field -> getField f (setField field v inputs) = getField f inputs.
Proof. intros H. destruct field, f; try reflexivity; now exfalso. Qed.

(** A value [validateInput] accepts reads back as it was written. *)
Lemma getField_setField_same (field : InputField.t) (v : R)
    (inputs : UserInputs) :
  validateInput field (Some v) = None ->
  getField field (setField field v inputs) = v.
Proof.
  intros H. apply validateInput_accepts in H.
  destruct field; try reflexivity. cbn [getField setField numberOfPurchases].
  tauto.
Qed.

Lemma inputsInDomain_setField (field : InputField.t) (v : R)
    (inputs : UserInputs) :
  inputsInDomain inputs -> validateInput field (Some v) = None ->
  inputsInDomain (setField field v inputs).
Proof.
  intros Hdom Hv. apply accepted_inputsInDomain. intros f.
  destruct (InputField.eqb f field) eqn:E.
  - apply InputField_eqb_eq in E. subst f.
    now rewrite getField_setField_same.
  - assert (Hne : f <> field)
      by (intros ->; now rewrite InputField_eqb_refl in E).
    rewrite getField_setField_other by assumption.
    now apply inputsInDomain_accepted.
Qed.

(** ** [handleInputChange] *)

(** X3. An empty input string changes no input value: it only clears the
    message of its own field. *)
Theorem handleInputChange_empty
    (parseInt : string -> Z -> option R) (parseFloat : string -> option R)
    (field : InputField.t) (st : FormState) :
  let st' := handleInputChange parseInt parseFloat field EmptyString st in
  userInputs st' = userInputs st
  /\ errors st' field = None
  /\ forall f, f <> field -> errors st' f = errors st f.
Proof.
  cbv zeta. unfold handleInputChange. cbn [isEmptyString userInputs errors].
  split; [reflexivity|]. split; [apply setError_same|].
  intros f Hf. now apply setError_other.
Qed.

(** The number [handleInputChange] parses from a string that is not
    empty. *)
Lemma handleInputChange_cases
    (parseInt : string -> Z -> option R) (parseFloat : string -> option R)
    (field : InputField.t) (value : string) (st : FormState) :
  value <> EmptyString ->
  let numValue :=
    match field with
    | InputField.numberOfPurchases => parseInt value 10%Z
    | _ => parseFloat value
    end in
  let st' := handleInputChange parseInt parseFloat field value st in
  errors st' = setError field (orUndefined (validateInput field numValue))
                 (errors st)
  /\ (validateInput field numValue <> None -> userInputs st' = userInputs st)
  /\ (validateInput field numValue = None ->
      exists v, numValue = Some v
                /\ userInputs st' = setField field v (userInputs st)).
Proof.
  intros Hne. cbv zeta. unfold handleInputChange.
  destruct value as [|ch rest]; [now exfalso|]. cbn [isEmptyString].
  set (numValue := match field with
                   | InputField.numberOfPurchases => parseInt (String ch rest) 10%Z
                   | _ => parseFloat (String ch rest)
                   end).
  destruct numValue as [v|] eqn:Enum.
  - cbn [isNaN negb andb].
    destruct (truthy (validateInput field (Some v))) eqn:Etr;
      cbn [negb andb userInputs errors].
    + split; [reflexivity|]. split; [reflexivity|].
      intros Hnone. rewrite Hnone in Etr. discriminate.
    + split; [reflexivity|]. split.
      * intros Hsome. apply validateInput_truthy in Hsome. congruence.
      * intros _. now exists v.
  - cbn [userInputs errors]. split; [reflexivity|]. split; [reflexivity|].
    intros Hnone. now apply validateInput_NaN in Hnone.
Qed.

(** X4. A value that [validateInput] refuses (NaN included) is not stored:
    the inputs stay as they were, the field shows the message and the
    messages of the other fields stay. *)
Theorem handleInputChange_rejected
    (parseInt : string -> Z -> option R) (parseFloat : string -> option R)
    (field : InputField.t) (value : string) (st : FormState)
    (message : string) :
  value <> EmptyString ->
  validateInput field
    (match field with
     | InputField.numberOfPurchases => parseInt value 10%Z
     | _ => parseFloat value
     end) = Some message ->
  let st' := handleInputChange parseInt parseFloat field value st in
  userInputs st' = userInputs st
  /\ errors st' field = Some message
  /\ forall f, f <> field -> errors st' f = errors st f.
Proof.
  intros Hne Hval. cbv zeta.
  destruct (handleInputChange_cases parseInt parseFloat field value st Hne)
    as (Herr & Hrej & _).
  split; [apply Hrej; congruence|].
  rewrite Herr. split.
  - rewrite setError_same. unfold orUndefined.
    assert (Htr : truthy (validateInput field
                            match field with
                            | InputField.numberOfPurchases => parseInt value 10%Z
                            | _ => parseFloat value
                            end) = true)
      by (apply validateInput_truthy; congruence).
    now rewrite Htr.
  - intros f Hf. now apply setError_other.
Qed.

Lemma handleInputChange_rejected_witness :
  let st := {| userInputs := initialUserInputs; errors := noErrors |} in
  let st' :=
    handleInputChange (fun _ _ => None) (fun _ => Some (-5))
      InputField.purchasePrice "-5"%string st in
  userInputs st' = initialUserInputs
  /\ errors st' InputField.purchasePrice
     = Some "Цена покупки должна быть положительным числом"%string
  /\ forall f, f <> InputField.purchasePrice -> errors st' f = None.
Proof.
  apply (handleInputChange_rejected (fun _ _ => None) (fun _ => Some (-5))
           InputField.purchasePrice "-5"%string
           {| userInputs := initialUserInputs; errors := noErrors |}
           "Цена покупки должна быть положительным числом"%string).
  - discriminate.
  - cbn [validateInput isNaN orb numLt].
    destruct (Rlt_dec (-5) 0) as [_|Hn]; [reflexivity|exfalso; lra].
Defined.

(** X5. A value that [validateInput] accepts is stored in its field and
    reads back unchanged; the other fields keep their values, the message
    of the field is cleared and the other messages stay. *)
Theorem handleInputChange_accepted
    (parseInt : string -> Z -> option R) (parseFloat : string -> option R)
    (field : InputField.t) (value : string) (st : FormState) (v : R) :
  value <> EmptyString ->
  match field with
  | InputField.numberOfPurchases => parseInt value 10%Z
  | _ => parseFloat value
  end = Some v ->
  validateInput field (Some v) = None ->
  let st' := handleInputChange parseInt parseFloat field value st in
  getField field (userInputs st') = v
  /\ (forall f, f <> field ->
        getField f (userInputs st') = getField f (userInputs st))
  /\ errors st' field = None
  /\ forall f, f <> field -> errors st' f = errors st f.
Proof.
  intros Hne Hparse Hval. cbv zeta.
  destruct (handleInputChange_cases parseInt parseFloat field value st Hne)
    as (Herr & _ & Hacc).
  rewrite Hparse in Herr, Hacc.
  destruct (Hacc Hval) as (v' & Hv' & Hin). injection Hv' as <-.
  rewrite Hin, Herr, Hval.
  split; [now apply getField_setField_same|].
  split; [intros f Hf; now apply getField_setField_other|].
  split; [apply setError_same|].
  intros f Hf. now apply setError_other.
Qed.

Lemma handleInputChange_accepted_witness :
  let st := {| userInputs := initialUserInputs; errors := noErrors |} in
  let st' :=
    handleInputChange (fun _ _ => Some 3) (fun _ => None)
      InputField.numberOfPurchases "3"%string st in
  getField InputField.numberOfPurchases (userInputs st') = 3
  /\ (forall f, f <> InputField.numberOfPurchases ->
        getField f (userInputs st') = getField f initialUserInputs)
  /\ errors st' InputField.numberOfPurchases = None
  /\ forall f, f <> InputField.numberOfPurchases -> errors st' f = None.
Proof.
  apply (handleInputChange_accepted (fun _ _ => Some 3) (fun _ => None)
           InputField.numberOfPurchases "3"%string
           {| userInputs := initialUserInputs; errors := noErrors |} 3).
  - discriminate.
  - reflexivity.
  - apply validateInput_accepts. split; [lra|].
    change 3 with (IZR 3). now rewrite Zfloor_IZR.
Defined.

(** ** [handleBlur] *)

Lemma Rmax_IZR (a b : Z) : Rmax (IZR a) (IZR b) = IZR (Z.max a b).
Proof.
  destruct (Z.le_ge_cases a b) as [H | H].
  - rewrite Rmax_right by now apply IZR_le. now rewrite Z.max_r.
  - rewrite Rmax_left by now apply IZR_le. now rewrite Z.max_l.
Qed.

(** The corrected number of purchases is an integer. *)
Lemma correctedValue_integer (currentValue : R) :
  let c := correctedValue InputField.numberOfPurchases currentValue in
  IZR (Zfloor c) = c.
Proof.
  cbv zeta. cbn [correctedValue]. change 1 with (IZR 1).
  now rewrite Rmax_IZR, Zfloor_IZR.
Qed.

Lemma correctedValue_accepted (field : InputField.t) (currentValue : R) :
  validateInput field (Some (correctedValue field currentValue)) = None.
Proof.
  apply validateInput_accepts. destruct field; cbn [correctedValue].
  - apply Rmax_l.
  - split; [apply Rmax_l|]. apply (correctedValue_integer currentValue).
  - apply Rmax_l.
  - split; [apply Rmax_l|].
    apply Rmax_lub; [lra|apply Rmin_l].
  - split; [apply Rmax_l|].
    apply Rmax_lub; [lra|apply Rmin_l].
Qed.

Lemma correctedValue_fixed (field : InputField.t) (currentValue : R) :
  validateInput field (Some currentValue) = None ->
  correctedValue field currentValue = currentValue.
Proof.
  intros H. apply validateInput_accepts in H.
  destruct field; cbn [correctedValue].
  - now apply Rmax_right.
  - destruct H as [H1 H2]. rewrite H2. now apply Rmax_right.
  - now apply Rmax_right.
  - rewrite Rmin_right by tauto. apply Rmax_right; tauto.
  - rewrite Rmin_right by tauto. apply Rmax_right; tauto.
Qed.

(** X6. The value [handleBlur] computes as a correction is always one that
    [validateInput] accepts, and a value that is already accepted is its
    own correction. *)
Theorem correctedValue_valid (field : InputField.t) (currentValue : R) :
  validateInput field (Some (correctedValue field currentValue)) = None
  /\ (validateInput field (Some currentValue) = None ->
      correctedValue field currentValue = currentValue).
Proof.
  split.
  - apply correctedValue_accepted.
  - apply correctedValue_fixed.
Qed.

Lemma correctedValue_valid_witness :
  correctedValue InputField.reviewQuality 0.5 = 0.5.
Proof.
  apply (correctedValue_valid InputField.reviewQuality 0.5).
  apply validateInput_accepts. lra.
Defined.

(** X7. After [handleBlur] the field holds a value that [validateInput]
    accepts, whatever it held before; the other fields and the messages of
    the other fields are untouched. *)
Theorem handleBlur_makes_valid (field : InputField.t) (st : FormState) :
  let st' := handleBlur field st in
  validateInput field (Some (getField field (userInputs st'))) = None
  /\ forall f, f <> field ->
       getField f (userInputs st') = getField f (userInputs st)
       /\ errors st' f = errors st f.
Proof.
  cbv zeta. unfold handleBlur.
  set (cur := getField field (userInputs st)).
  destruct (truthy (validateInput field (Some cur))) eqn:Etr;
    cbn [userInputs errors].
  - pose proof (correctedValue_accepted field cur) as Hok.
    split.
    + now rewrite getField_setField_same.
    + intros f Hf. split.
      * now apply getField_setField_other.
      * now apply setError_other.
  - split; [|intros f Hf; split; reflexivity].
    fold cur.
    destruct (validateInput field (Some cur)) eqn:Ev; [|reflexivity].
    assert (Htrue : truthy (validateInput field (Some cur)) = true)
      by (apply validateInput_truthy; congruence).
    rewrite Ev in Htrue. congruence.
Qed.

(** X8. On inputs that are in the domain [handleBlur] does nothing at all,
    for any field: no value changes and no message is cleared, not even a
    message a refused keystroke left on that field. *)
Theorem handleBlur_valid_noop (field : InputField.t) (st : FormState) :
  inputsInDomain (userInputs st) -> handleBlur field st = st.
Proof.
  intros Hdom. unfold handleBlur.
  rewrite (inputsInDomain_accepted (userInputs st) field Hdom).
  reflexivity.
Qed.

Lemma handleBlur_valid_noop_witness :
  let st :=
    {| userInputs := initialUserInputs;
       errors := setError InputField.purchasePrice
                   (Some "Цена покупки должна быть положительным числом"%string)
                   noErrors |} in
  handleBlur InputField.purchasePrice st = st.
Proof.
  apply (handleBlur_valid_noop InputField.purchasePrice).
  exact initialUserInputs_inDomain.
Defined.

(** ** The inputs stay in the domain *)

Lemma handleBlur_inDomain (field : InputField.t) (st : FormState) :
  inputsInDomain (userInputs st) ->
  inputsInDomain (userInputs (handleBlur field st)).
Proof.
  intros Hdom. unfold handleBlur.
  now rewrite (inputsInDomain_accepted (userInputs st) field Hdom).
Qed.

Lemma handleInputChange_inDomain
    (parseInt : string -> Z -> option R) (parseFloat : string -> option R)
    (field : InputField.t) (value : string) (st : FormState) :
  inputsInDomain (userInputs st) ->
  inputsInDomain
    (userInputs (handleInputChange parseInt parseFloat field value st)).
Proof.
  intros Hdom.
  destruct value as [|ch rest].
  - exact Hdom.
  - assert (Hne : String ch rest <> EmptyString) by discriminate.
    destruct (handleInputChange_cases parseInt parseFloat field
                (String ch rest) st Hne) as (_ & Hrej & Hacc).
    destruct (validateInput field
                match field with
                | InputField.numberOfPurchases => parseInt (String ch rest) 10%Z
                | _ => parseFloat (String ch rest)
                end) eqn:Ev.
    + rewrite Hrej by discriminate. exact Hdom.
    + destruct (Hacc eq_refl) as (v & Hv & Hin).
      rewrite Hin. apply inputsInDomain_setField; [exact Hdom|].
      now rewrite <- Hv.
Qed.

(** X9. Whatever the user types and wherever the focus goes, the inputs
    the component holds stay in the domain: from inputs in the domain,
    every sequence of [handleInputChange] and [handleBlur] calls, with
    any parsers, ends on inputs in the domain.  Both initial states of the
    form are in the domain. *)
Theorem formRun_inDomain
    (parseInt : string -> Z -> option R) (parseFloat : string -> option R)
    (events : list FormEvent) (st : FormState) :
  inputsInDomain (userInputs st) ->
  inputsInDomain (userInputs (formRun parseInt parseFloat events st))
  /\ inputsInDomain initialUserInputs
  /\ inputsInDomain initialUserInputs_earlier.
Proof.
  intros Hdom. split.
  - revert st Hdom. unfold formRun.
    induction events as [|ev events IH]; intros st Hdom; [exact Hdom|].
    cbn [fold_left]. apply IH.
    destruct ev as [field value | field]; cbn [formStep].
    + now apply handleInputChange_inDomain.
    + now apply handleBlur_inDomain.
  - split; [exact initialUserInputs_inDomain|].
    unfold inputsInDomain; cbn; repeat split; try lra; lia.
Qed.

Lemma formRun_inDomain_witness :
  inputsInDomain
    (userInputs
       (formRun (fun _ _ => Some 2.5) (fun _ => Some 0.25)
          [Change InputField.numberOfPurchases "2.5"%string;
           Blur InputField.numberOfPurchases;
           Change InputField.reviewQuality "0.25"%string]
          {| userInputs := initialUserInputs_earlier; errors := noErrors |})).
Proof.
  apply (formRun_inDomain (fun _ _ => Some 2.5) (fun _ => Some 0.25)
           [Change InputField.numberOfPurchases "2.5"%string;
            Blur InputField.numberOfPurchases;
            Change InputField.reviewQuality "0.25"%string]
           {| userInputs := initialUserInputs_earlier; errors := noErrors |}).
  unfold inputsInDomain; cbn; repeat split; try lra; lia.
Defined.

(** ** The bonding curve chart *)

Lemma bondingCurveLoop_rounds (systemParams : SystemParams) (m : nat) :
  forall (fuel : nat) (totalMinted : Z) (data : list BondingPoint.t),
    (m <= fuel)%nat ->
    (totalMinted + 1000 * Z.of_nat m = 101000)%Z ->
    bondingCurveLoop fuel totalMinted systemParams data
    = data ++ map (fun j => bondingPointAt systemParams
                              (totalMinted + 1000 * Z.of_nat j))
                (seq 0 m).
Proof.
  induction m as [|m IH]; intros fuel z data Hfuel Hz.
  - cbn [seq map]. rewrite app_nil_r.
    destruct fuel as [|fuel]; [reflexivity|]. cbn [bondingCurveLoop].
    assert (Hgt : (z <=? 100000)%Z = false) by (apply Z.leb_gt; lia).
    now rewrite Hgt.
  - destruct fuel as [|fuel]; [lia|]. cbn [bondingCurveLoop].
    assert (Hle : (z <=? 100000)%Z = true) by (apply Z.leb_le; lia).
    rewrite Hle. rewrite IH by lia.
    rewrite <- app_assoc. f_equal. cbn [app seq map].
    f_equal.
    + unfold bondingPointAt. now replace (z + 1000 * Z.of_nat 0)%Z with z by lia.
    + rewrite <- seq_shift, map_map. apply map_ext. intros j.
      f_equal. lia.
Qed.

Lemma bondingCurveLoop_fuel_enough (systemParams : SystemParams) (extra : nat) :
  bondingCurveLoop (101 + extra) 0%Z systemParams []
  = bondingCurveData systemParams.
Proof.
  unfold bondingCurveData.
  rewrite (bondingCurveLoop_rounds systemParams 101 (101 + extra)) by lia.
  now rewrite (bondingCurveLoop_rounds systemParams 101 101) by lia.
Qed.

Lemma bondingCurveData_map (systemParams : SystemParams) :
  bondingCurveData systemParams
  = map (fun i => bondingPointAt systemParams (1000 * Z.of_nat i)) (seq 0 101).
Proof.
  unfold bondingCurveData.
  rewrite (bondingCurveLoop_rounds systemParams 101 101) by lia.
  reflexivity.
Qed.

(** X10. [bondingCurveData] is the list of the 101 points at the supplies
    0, 1000, ..., 100000, in this order, each with the token price at its
    supply. *)
Theorem bondingCurveData_points (systemParams : SystemParams) :
  bondingCurveData systemParams
  = map (fun i => bondingPointAt systemParams (1000 * Z.of_nat i)) (seq 0 101)
  /\ length (bondingCurveData systemParams) = 101%nat.
Proof.
  split; [apply bondingCurveData_map|].
  rewrite bondingCurveData_map, length_map, length_seq. reflexivity.
Qed.

Lemma nth_error_map_seq {A : Type} (f : nat -> A) (n i : nat) (p : A) :
  nth_error (map f (seq 0 n)) i = Some p <-> (i < n)%nat /\ p = f i.
Proof.
  split.
  - intros H.
    assert (Hi : (i < n)%nat).
    { assert (Hlen : (i < length (map f (seq 0 n)))%nat)
        by (apply nth_error_Some; congruence).
      now rewrite length_map, length_seq in Hlen. }
    split; [exact Hi|].
    rewrite nth_error_map in H.
    rewrite (nth_error_nth' (seq 0 n) 0%nat) in H by now rewrite length_seq.
    rewrite seq_nth in H by assumption.
    cbn in H. congruence.
  - intros [Hi ->].
    rewrite nth_error_map.
    rewrite (nth_error_nth' (seq 0 n) 0%nat) by now rewrite length_seq.
    now rewrite seq_nth by assumption.
Qed.

(** X11. Along [bondingCurveData] the supply and, for P0 >= 0 and k >= 0,
    the price never decrease from a point to a later one; the first point
    is the supply 0 at the price P0. *)
Theorem bondingCurveData_sorted (systemParams : SystemParams) (i j : nat)
    (p q : BondingPoint.t) :
  0 <= P0 systemParams -> 0 <= k systemParams ->
  nth_error (bondingCurveData systemParams) i = Some p ->
  nth_error (bondingCurveData systemParams) j = Some q ->
  (i <= j)%nat ->
  BondingPoint.totalMinted p <= BondingPoint.totalMinted q
  /\ BondingPoint.price p <= BondingPoint.price q
  /\ nth_error (bondingCurveData systemParams) 0
     = Some {| BondingPoint.totalMinted := 0;
               BondingPoint.price := P0 systemParams |}.
Proof.
  intros HP Hk Hp Hq Hij.
  rewrite (bondingCurveData_map systemParams) in *.
  apply nth_error_map_seq in Hp. apply nth_error_map_seq in Hq.
  destruct Hp as [Hi ->], Hq as [Hj ->].
  unfold bondingPointAt. cbn [BondingPoint.totalMinted BondingPoint.price].
  assert (Hle : IZR (1000 * Z.of_nat i) <= IZR (1000 * Z.of_nat j))
    by (apply IZR_le; lia).
  assert (H0 : 0 <= IZR (1000 * Z.of_nat i)) by (apply IZR_le; lia).
  split; [exact Hle|]. split.
  - now apply calculateTokenPrice_mono.
  - cbn [seq map nth_error]. unfold bondingPointAt.
    cbn [Z.of_nat Z.mul]. f_equal. f_equal.
    unfold calculateTokenPrice. ring.
Qed.

Lemma bondingCurveData_sorted_witness :
  BondingPoint.price (bondingPointAt DEFAULT_SYSTEM_PARAMS 3000)
  <= BondingPoint.price (bondingPointAt DEFAULT_SYSTEM_PARAMS 50000).
Proof.
  apply (bondingCurveData_sorted DEFAULT_SYSTEM_PARAMS 3 50
           (bondingPointAt DEFAULT_SYSTEM_PARAMS 3000)
           (bondingPointAt DEFAULT_SYSTEM_PARAMS 50000)).
  - cbn. lra.
  - cbn. lra.
  - rewrite (bondingCurveData_map DEFAULT_SYSTEM_PARAMS).
    apply nth_error_map_seq. split; [lia|reflexivity].
  - rewrite (bondingCurveData_map DEFAULT_SYSTEM_PARAMS).
    apply nth_error_map_seq. split; [lia|reflexivity].
  - lia.
Defined.

(** ** The emission chart *)

Lemma IZR_le_Zfloor (t : Z) (x : R) : IZR t <= x <-> (t <= Zfloor x)%Z.
Proof.
  split.
  - apply Zfloor_lub.
  - intros H. apply IZR_le in H.
    pose proof (Zfloor_bound x). lra.
Qed.

Section EmissionLoop.
Variables (userInputs0 : UserInputs) (systemParams : SystemParams).
Variables (maxPeriod : R) (userPeriod : Z).

Lemma emissionLoop_rounds (m : nat) :
  forall (fuel : nat) (t : Z) (st : EmissionState.t)
         (data : list EmissionPoint.t),
    (m <= fuel)%nat ->
    (t + Z.of_nat m = Zfloor maxPeriod + 1)%Z ->
    emissionLoop fuel t maxPeriod userPeriod userInputs0 systemParams st data
    = data
      ++ map (fun j =>
                emissionPointAt systemParams (t + Z.of_nat j)
                  (if andb (t <=? userPeriod)%Z (userPeriod <=? t + Z.of_nat j)%Z
                   then emissionPurchases userInputs0 systemParams
                          userPeriod st
                   else st))
           (seq 0 m).
Proof.
  induction m as [|m IH]; intros fuel t st data Hfuel Ht.
  - cbn [seq map]. rewrite app_nil_r.
    destruct fuel as [|fuel]; [reflexivity|]. cbn [emissionLoop].
    destruct (Rle_dec (IZR t) maxPeriod) as [Hle|_]; [|reflexivity].
    apply IZR_le_Zfloor in Hle. lia.
  - destruct fuel as [|fuel]; [lia|]. cbn [emissionLoop].
    destruct (Rle_dec (IZR t) maxPeriod) as [_|Hn];
      [|exfalso; apply Hn, IZR_le_Zfloor; lia].
    rewrite Bool.andb_true_r.
    rewrite IH by lia. rewrite <- app_assoc. f_equal.
    cbn [app seq map]. fold (emissionPurchases userInputs0 systemParams t st).
    replace (t + Z.of_nat 0)%Z with t by lia.
    destruct (t =? userPeriod)%Z eqn:Eeq.
    + apply Z.eqb_eq in Eeq. subst userPeriod.
      rewrite Z.leb_refl. cbn [andb]. f_equal.
      rewrite <- seq_shift, map_map. apply map_ext. intros j.
      replace (t + 1 <=? t)%Z with false by (symmetry; apply Z.leb_gt; lia).
      replace (t <=? t + Z.of_nat (Datatypes.S j))%Z with true
        by (symmetry; apply Z.leb_le; lia).
      cbn [andb]. f_equal. lia.
    + apply Z.eqb_neq in Eeq.
      replace (andb (t <=? userPeriod)%Z (userPeriod <=? t)%Z) with false
        by (symmetry; apply Bool.andb_false_iff;
            destruct (Z.leb_spec t userPeriod); [right; apply Z.leb_gt; lia
                                                |left; reflexivity]).
      f_equal.
      rewrite <- seq_shift, map_map. apply map_ext. intros j.
      replace (t + 1 + Z.of_nat j)%Z with (t + Z.of_nat (Datatypes.S j))%Z by lia.
      replace (t + 1 <=? userPeriod)%Z with (t <=? userPeriod)%Z; [reflexivity|].
      destruct (Z.leb_spec t userPeriod), (Z.leb_spec (t + 1) userPeriod);
        try reflexivity; lia.
Qed.
End EmissionLoop.

(** X12. [emissionChartData] has one point for every period
    [0 .. floor(max(period, 10))], in this order.  A point before
    [floor(period)] (and every point, if [floor(period)] is negative)
    carries the state before any purchase; a point at or after
    [floor(period)] carries the state the purchase loop leaves: the line
    of the chart is a single step at [floor(period)]. *)
Theorem emissionChartData_points (userInputs0 : UserInputs)
    (systemParams : SystemParams) :
  let userPeriod := Zfloor (period userInputs0) in
  let last := Zfloor (Rmax (period userInputs0) 10) in
  emissionChartData userInputs0 systemParams
  = map (fun j =>
           emissionPointAt systemParams (Z.of_nat j)
             (if andb (0 <=? userPeriod)%Z (userPeriod <=? Z.of_nat j)%Z
              then emissionFinalState userInputs0 systemParams
              else emissionInitialState))
      (seq 0 (Z.to_nat (last + 1)))
  /\ length (emissionChartData userInputs0 systemParams)
     = Z.to_nat (last + 1)
  /\ (11 <= length (emissionChartData userInputs0 systemParams))%nat.
Proof.
  cbv zeta.
  set (last := Zfloor (Rmax (period userInputs0) 10)).
  assert (Hlast : (10 <= last)%Z).
  { apply IZR_le_Zfloor. apply Rmax_r. }
  assert (H : emissionChartData userInputs0 systemParams
              = map (fun j =>
                       emissionPointAt systemParams (Z.of_nat j)
                         (if andb (0 <=? Zfloor (period userInputs0))%Z
                               (Zfloor (period userInputs0) <=? Z.of_nat j)%Z
                          then emissionFinalState userInputs0 systemParams
                          else emissionInitialState))
                  (seq 0 (Z.to_nat (last + 1)))).
  { unfold emissionChartData. cbv zeta. fold last.
    rewrite (emissionLoop_rounds userInputs0 systemParams _ _
               (Z.to_nat (last + 1))) by (fold last; lia).
    cbn [app]. apply map_ext. intros j. reflexivity. }
  split; [exact H|].
  assert (Hlen : length (emissionChartData userInputs0 systemParams)
                 = Z.to_nat (last + 1))
    by (rewrite H, length_map, length_seq; reflexivity).
  split; [exact Hlen|]. rewrite Hlen. lia.
Qed.

(** ** The purchase loop of the emission chart *)

Lemma emissionMintBody_emissionStep (inputs : UserInputs)
    (params : SystemParams) (g0 : R) (i : Z) (st : EmissionState.t) :
  EmissionState.globalTotalMinted st
  = g0 + EmissionState.cumulativeMinted st * ASSUMED_USERS ->
  let st' :=
    emissionMintBody inputs params (IZR (Zfloor (period inputs))) i st in
  EmissionState.cumulativeMinted st'
  = emissionStep params (mintCoefficient inputs params) g0
      (EmissionState.cumulativeMinted st)
  /\ EmissionState.globalTotalMinted st'
     = g0 + EmissionState.cumulativeMinted st' * ASSUMED_USERS.
Proof.
  intros Hinv. cbv zeta. unfold emissionMintBody, emissionStep, mintCoefficient.
  cbn [EmissionState.cumulativeMinted EmissionState.globalTotalMinted].
  rewrite Hinv. split; unfold Rdiv; ring.
Qed.

Lemma emissionFinalState_iter (inputs : UserInputs) (params : SystemParams) :
  let st := emissionFinalState inputs params in
  EmissionState.cumulativeMinted st
  = Nat.iter (Z.to_nat (numberOfPurchases inputs))
      (emissionStep params (mintCoefficient inputs params)
         INITIAL_GLOBAL_MINTED) 0
  /\ EmissionState.globalTotalMinted st
     = INITIAL_GLOBAL_MINTED
       + EmissionState.cumulativeMinted st * ASSUMED_USERS.
Proof.
  cbv zeta. unfold emissionFinalState.
  set (t := IZR (Zfloor (period inputs))).
  change (emissionMintBody inputs params t)
    with (fun _ : Z => emissionMintBody inputs params t 0%Z).
  rewrite for_loop_iter.
  induction (Z.to_nat (numberOfPurchases inputs)) as [|j [IHu IHg]].
  - cbn. split; ring.
  - rewrite !Nat.iter_succ.
    destruct (emissionMintBody_emissionStep inputs params
                INITIAL_GLOBAL_MINTED 0%Z _ IHg) as [Hu Hg].
    fold t in Hu, Hg. split; [|exact Hg].
    rewrite Hu. now rewrite IHu.
Qed.

(** X13. With at most one purchase the emission chart and the results
    agree: the minted total and the price that the purchase loop of
    [emissionChartData] leaves are [totalMintedUser] and [tokenPrice] of
    [results].  (With more purchases the two loops feed different global
    totals to the price and need not agree.) *)
Theorem emissionChart_single_purchase (inputs : UserInputs)
    (params : SystemParams) :
  (numberOfPurchases inputs <= 1)%Z ->
  let st := emissionFinalState inputs params in
  let r := results inputs params in
  EmissionState.cumulativeMinted st = totalMintedUser r
  /\ calculateTokenPrice (EmissionState.globalTotalMinted st) params
     = tokenPrice r.
Proof.
  intros Hn. cbv zeta.
  destruct (emissionFinalState_iter inputs params) as [Hu Hgl].
  assert (Heq : EmissionState.cumulativeMinted
                  (emissionFinalState inputs params)
                = totalMintedUser (results inputs params)).
  { rewrite Hu, results_totalMintedUser.
    assert (Hcases : Z.to_nat (numberOfPurchases inputs) = 0%nat
                     \/ Z.to_nat (numberOfPurchases inputs) = 1%nat) by lia.
    destruct Hcases as [-> | ->]; [reflexivity|].
    cbn [Nat.iter nat_rect]. unfold emissionStep, mintStep.
    now replace (INITIAL_GLOBAL_MINTED + 0 * ASSUMED_USERS)
      with (INITIAL_GLOBAL_MINTED + 0) by ring. }
  split; [exact Heq|].
  rewrite Hgl, Heq. reflexivity.
Qed.

Lemma emissionChart_single_purchase_witness :
  let inputs := withNumberOfPurchases initialUserInputs_earlier 1 in
  let st := emissionFinalState inputs DEFAULT_SYSTEM_PARAMS in
  let r := results inputs DEFAULT_SYSTEM_PARAMS in
  EmissionState.cumulativeMinted st = totalMintedUser r
  /\ calculateTokenPrice (EmissionState.globalTotalMinted st)
       DEFAULT_SYSTEM_PARAMS
     = tokenPrice r.
Proof.
  apply (emissionChart_single_purchase
           (withNumberOfPurchases initialUserInputs_earlier 1)
           DEFAULT_SYSTEM_PARAMS).
  cbn. lia.
Defined.

(** ** More on the mint accumulator *)

(** X14. The loop of [calculateMintedTokens] keeps the global total equal
    to the starting global total plus the user's total: the returned
    [newGlobalTotalMinted] is [globalTotalMinted + totalMintedUser]. *)
Theorem calculateMintedTokens_global_invariant (inputs : UserInputs)
    (params : SystemParams) (globalTotalMinted : R) :
  let r := calculateMintedTokens inputs params globalTotalMinted in
  MintResult.newGlobalTotalMinted r
  = globalTotalMinted + MintResult.totalMintedUser r.
Proof.
  cbv zeta. unfold calculateMintedTokens.
  cbn [MintResult.newGlobalTotalMinted MintResult.totalMintedUser].
  apply mintLoop_iter.
Qed.

Lemma calculateMintedTokens_total (inputs : UserInputs)
    (params : SystemParams) (g0 : R) :
  MintResult.totalMintedUser (calculateMintedTokens inputs params g0)
  = Nat.iter (Z.to_nat (numberOfPurchases inputs))
      (mintStep params (mintCoefficient inputs params) g0) 0.
Proof.
  unfold calculateMintedTokens. cbn [MintResult.totalMintedUser].
  apply mintLoop_iter.
Qed.

(** X15. The mint accumulator never takes tokens back: in the domains,
    from any starting global total, the returned [totalMintedUser] is not
    negative and the returned [newGlobalTotalMinted] is not below the
    starting global total. *)
Theorem totalMintedUser_nonneg (inputs : UserInputs) (params : SystemParams)
    (globalTotalMinted : R) :
  paramsInDomain params ->
  inputsInDomain inputs ->
  let r := calculateMintedTokens inputs params globalTotalMinted in
  0 <= MintResult.totalMintedUser r
  /\ globalTotalMinted <= MintResult.newGlobalTotalMinted r.
Proof.
  intros (_ & _ & Hb & _ & HP & Hk & _)
         (Hp & _ & _ & [Hrq _] & [_ Hrp]).
  cbv zeta.
  assert (Hm : 0 <= MintResult.totalMintedUser
                      (calculateMintedTokens inputs params globalTotalMinted)).
  { rewrite calculateMintedTokens_total.
    apply mintStep_iter_nonneg; try assumption.
    now apply mintCoefficient_nonneg. }
  split; [exact Hm|].
  unfold calculateMintedTokens in *.
  cbn [MintResult.totalMintedUser MintResult.newGlobalTotalMinted] in *.
  rewrite (proj2 (mintLoop_iter inputs params globalTotalMinted)). lra.
Qed.

Lemma totalMintedUser_nonneg_witness :
  let r :=
    calculateMintedTokens initialUserInputs DEFAULT_SYSTEM_PARAMS
      INITIAL_GLOBAL_MINTED in
  0 <= MintResult.totalMintedUser r
  /\ INITIAL_GLOBAL_MINTED <= MintResult.newGlobalTotalMinted r.
Proof.
  apply (totalMintedUser_nonneg initialUserInputs DEFAULT_SYSTEM_PARAMS
           INITIAL_GLOBAL_MINTED).
  - exact DEFAULT_SYSTEM_PARAMS_inDomain.
  - exact initialUserInputs_inDomain.
Defined.

(** X16. One more purchase never lowers the total: in the domains the
    total minted with [n1] purchases is at most the total with
    [n2 >= n1] purchases, all else equal. *)
Theorem totalMintedUser_monotone_in_numberOfPurchases (inputs : UserInputs)
    (params : SystemParams) (n1 n2 : Z) :
  paramsInDomain params ->
  inputsInDomain inputs ->
  (n1 <= n2)%Z ->
  totalMintedUser (results (withNumberOfPurchases inputs n1) params)
  <= totalMintedUser (results (withNumberOfPurchases inputs n2) params).
Proof.
  intros (_ & _ & Hb & Hg & HP & Hk & _ & _ & _ & _ & Hcap)
         (Hp & _ & _ & [Hrq _] & [_ Hrp]) Hn.
  rewrite !results_totalMintedUser.
  cbn [withNumberOfPurchases numberOfPurchases].
  change (mintCoefficient (withNumberOfPurchases inputs n1) params)
    with (mintCoefficient inputs params).
  change (mintCoefficient (withNumberOfPurchases inputs n2) params)
    with (mintCoefficient inputs params).
  pose proof (mintCoefficient_nonneg inputs params Hb Hp Hrp Hrq) as Hc.
  assert (Hle : (Z.to_nat n1 <= Z.to_nat n2)%nat) by lia.
  induction Hle as [|m Hle IH]; [lra|].
  rewrite Nat.iter_succ.
  eapply Rle_trans; [exact IH|]. now apply mintStep_increases.
Qed.

Lemma totalMintedUser_monotone_in_numberOfPurchases_witness :
  totalMintedUser
    (results (withNumberOfPurchases initialUserInputs 2) DEFAULT_SYSTEM_PARAMS)
  <= totalMintedUser
       (results (withNumberOfPurchases initialUserInputs 9)
          DEFAULT_SYSTEM_PARAMS).
Proof.
  apply (totalMintedUser_monotone_in_numberOfPurchases initialUserInputs
           DEFAULT_SYSTEM_PARAMS 2 9).
  - exact DEFAULT_SYSTEM_PARAMS_inDomain.
  - exact initialUserInputs_inDomain.
  - lia.
Defined.





(** ** Edge cases of the engine *)

Lemma mintStep_zero_coefficient (params : SystemParams) (g0 : R) (j : nat) :
  Nat.iter j (mintStep params 0 g0) 0 = 0.
Proof.
  induction j as [|j IH]; [reflexivity|].
  rewrite Nat.iter_succ, IH. unfold mintStep, Rdiv. ring.
Qed.

(** X20. A zero purchase price mints nothing and burns only the access
    fee, for every number of purchases and all parameters:
    totalMintedUser = 0, totalBurned = access_fee and
    netTokens = - access_fee. *)
Theorem results_zero_purchasePrice (inputs : UserInputs)
    (params : SystemParams) :
  purchasePrice inputs = 0 ->
  let r := results inputs params in
  totalMintedUser r = 0
  /\ totalBurned r = access_fee params
  /\ netTokens r = - access_fee params.
Proof.
  intros Hp. cbv zeta.
  assert (Hm : totalMintedUser (results inputs params) = 0).
  { rewrite results_totalMintedUser.
    replace (mintCoefficient inputs params) with 0
      by (unfold mintCoefficient; rewrite Hp; ring).
    apply mintStep_zero_coefficient. }
  assert (Hb : totalBurned (results inputs params) = access_fee params).
  { unfold results. cbn [totalBurned].
    rewrite calculateBurnedTokens_sum, Hp. unfold Rdiv. ring. }
  split; [exact Hm|]. split; [exact Hb|].
  change (netTokens (results inputs params))
    with (totalMintedUser (results inputs params)
          - totalBurned (results inputs params)).
  rewrite Hm, Hb. ring.
Qed.

Lemma results_zero_purchasePrice_witness :
  let r := results (withPurchasePrice initialUserInputs 0) DEFAULT_SYSTEM_PARAMS in
  totalMintedUser r = 0 /\ totalBurned r = 10 /\ netTokens r = - 10.
Proof.
  apply (results_zero_purchasePrice (withPurchasePrice initialUserInputs 0)
           DEFAULT_SYSTEM_PARAMS).
  reflexivity.
Defined.

(** X21. The cashback expires: with CB_base >= 0, once
    alpha * (floor(period) - t_launch) >= 1 the cashback percent is
    clamped to 0, nothing is minted, and both diminishing-factor
    snapshots are 1. *)
Theorem results_cashback_expired (inputs : UserInputs)
    (params : SystemParams) :
  0 <= CB_base params ->
  1 <= alpha params * (IZR (Zfloor (period inputs)) - t_launch params) ->
  let r := results inputs params in
  Breakdown.CB_percent (breakdown r) = 0
  /\ totalMintedUser r = 0
  /\ Breakdown.dfFirst (breakdown r) = 1
  /\ Breakdown.dfLast (breakdown r) = 1.
Proof.
  intros HCB Hexp. cbv zeta.
  assert (Hcb : calculateCashbackPercent (IZR (Zfloor (period inputs))) params
                = 0).
  { unfold calculateCashbackPercent. apply Rmax_left. nra. }
  assert (Hm : totalMintedUser (results inputs params) = 0).
  { rewrite results_totalMintedUser.
    replace (mintCoefficient inputs params) with 0
      by (unfold mintCoefficient; rewrite Hcb; ring).
    apply mintStep_zero_coefficient. }
  split; [exact Hcb|]. split; [exact Hm|].
  unfold results.
  cbn [breakdown Breakdown.dfFirst Breakdown.dfLast].
  unfold calculateMintedTokens. cbn [MintResult.dfFirst MintResult.dfLast].
  split; [apply calculateDiminishingFactor_0|].
  change (loopTotalMintedUser (mintLoop inputs params INITIAL_GLOBAL_MINTED))
    with (totalMintedUser (results inputs params)).
  rewrite Hm. apply calculateDiminishingFactor_0.
Qed.

Lemma results_cashback_expired_witness :
  totalMintedUser
    (results (withPeriod initialUserInputs 100) DEFAULT_SYSTEM_PARAMS) = 0.
Proof.
  apply (results_cashback_expired (withPeriod initialUserInputs 100)
           DEFAULT_SYSTEM_PARAMS).
  - cbn. lra.
  - cbn. change 100 with (IZR 100). rewrite Zfloor_IZR. lra.
Defined.

(** X22. The discount is exhausted: with discount_base >= 0, once
    theta * (burnedYear / burn_cap) >= 1 the discount percent is clamped
    to 0 and the burn accumulator returns the access fee alone, for every
    token price and number of purchases. *)
Theorem calculateBurnedTokens_discount_exhausted (inputs : UserInputs)
    (params : SystemParams) (burnedYear tokenPrice : R) :
  0 <= discount_base params ->
  1 <= theta params * (burnedYear / burn_cap params) ->
  calculateDiscountPercent burnedYear params = 0
  /\ calculateBurnedTokens inputs params burnedYear tokenPrice
     = access_fee params.
Proof.
  intros Hd Hexh.
  assert (Hdp : calculateDiscountPercent burnedYear params = 0).
  { unfold calculateDiscountPercent. apply Rmax_left. nra. }
  split; [exact Hdp|].
  rewrite calculateBurnedTokens_sum, Hdp. unfold Rdiv. ring.
Qed.

Lemma calculateBurnedTokens_discount_exhausted_witness :
  calculateBurnedTokens initialUserInputs DEFAULT_SYSTEM_PARAMS 200000000 2
  = 10.
Proof.
  apply (calculateBurnedTokens_discount_exhausted initialUserInputs
           DEFAULT_SYSTEM_PARAMS 200000000 2).
  - cbn. lra.
  - cbn. lra.
Defined.

(** X23. The ranges of the formulas.  For parameters in their domain:
    the cashback percent lies in [0, CB_base] from the launch on, the
    discount percent in [0, discount_base] for a non-negative market
    burn, the quality factor in [1, 1 + beta] for a return probability
    and a review quality in [0,1], the diminishing factor in [0, 1] for a
    non-negative total, and the token price is at least P0. *)
Theorem formula_ranges (params : SystemParams)
    (t burnedYear rp rq m g : R) :
  paramsInDomain params ->
  t_launch params <= t -> 0 <= burnedYear ->
  0 <= rp <= 1 -> 0 <= rq <= 1 -> 0 <= m ->
  0 <= calculateCashbackPercent t params <= CB_base params
  /\ 0 <= calculateDiscountPercent burnedYear params <= discount_base params
  /\ 1 <= calculateQualityFactor rp rq params <= 1 + beta params
  /\ 0 <= calculateDiminishingFactor m params <= 1
  /\ P0 params <= calculateTokenPrice g params.
Proof.
  intros (HCB & Ha & Hb & Hg & HP & Hk & Hd & Hth & Hbc & _ & Hcap)
         Ht Hby [Hrp0 Hrp1] [Hrq0 Hrq1] Hm.
  repeat split.
  - apply calculateCashbackPercent_nonneg.
  - unfold calculateCashbackPercent. apply Rmax_lub; [assumption|].
    assert (0 <= alpha params * (t - t_launch params)) by nra. nra.
  - apply calculateDiscountPercent_nonneg.
  - unfold calculateDiscountPercent. apply Rmax_lub; [assumption|].
    pose proof (Rinv_nonneg _ Hbc).
    assert (0 <= burnedYear / burn_cap params) by (unfold Rdiv; nra).
    assert (0 <= theta params * (burnedYear / burn_cap params)) by nra.
    nra.
  - now apply calculateQualityFactor_ge_1.
  - unfold calculateQualityFactor.
    assert (0 <= beta params * (1 - rp) <= beta params) by nra.
    nra.
  - left. apply calculateDiminishingFactor_pos.
  - rewrite <- (calculateDiminishingFactor_0 params).
    now apply calculateDiminishingFactor_antitone.
  - unfold calculateTokenPrice. pose proof (pow2_ge_0 g).
    assert (0 <= k params * g ^ 2) by nra. nra.
Qed.

Lemma formula_ranges_witness :
  0 <= calculateCashbackPercent 1 DEFAULT_SYSTEM_PARAMS <= 0.05
  /\ 0 <= calculateDiscountPercent 3000 DEFAULT_SYSTEM_PARAMS <= 0.1
  /\ 1 <= calculateQualityFactor 0.1 0.8 DEFAULT_SYSTEM_PARAMS <= 1 + 0.3
  /\ 0 <= calculateDiminishingFactor 250 DEFAULT_SYSTEM_PARAMS <= 1
  /\ 1.0 <= calculateTokenPrice 10000 DEFAULT_SYSTEM_PARAMS.
Proof.
  apply (formula_ranges DEFAULT_SYSTEM_PARAMS 1 3000 0.1 0.8 250 10000).
  - exact DEFAULT_SYSTEM_PARAMS_inDomain.
  - cbn. lra.
  - lra.
  - lra.
  - lra.
  - lra.
Defined.

(** X24. The user's purchases never lower the price: in the domains the
    [tokenPrice] of the results is at least the price at the initial
    global supply, which is at least P0. *)
Theorem results_tokenPrice_ge_initial (inputs : UserInputs)
    (params : SystemParams) :
  paramsInDomain params ->
  inputsInDomain inputs ->
  P0 params <= calculateTokenPrice INITIAL_GLOBAL_MINTED params
  /\ calculateTokenPrice INITIAL_GLOBAL_MINTED params
     <= tokenPrice (results inputs params).
Proof.
  intros (_ & _ & Hb & Hg & HP & Hk & _ & _ & _ & _ & Hcap)
         (Hp & _ & _ & [Hrq _] & [_ Hrp]).
  split.
  - unfold calculateTokenPrice. pose proof (pow2_ge_0 INITIAL_GLOBAL_MINTED).
    assert (0 <= k params * INITIAL_GLOBAL_MINTED ^ 2) by nra. nra.
  - change (tokenPrice (results inputs params))
      with (calculateTokenPrice
              (INITIAL_GLOBAL_MINTED
               + totalMintedUser (results inputs params) * ASSUMED_USERS)
              params).
    assert (Hm : 0 <= totalMintedUser (results inputs params)).
    { rewrite results_totalMintedUser. apply mintStep_iter_nonneg;
        try assumption. now apply mintCoefficient_nonneg. }
    apply calculateTokenPrice_mono; try assumption;
      unfold INITIAL_GLOBAL_MINTED, ASSUMED_USERS in *; nra.
Qed.

Lemma results_tokenPrice_ge_initial_witness :
  P0 DEFAULT_SYSTEM_PARAMS
  <= calculateTokenPrice INITIAL_GLOBAL_MINTED DEFAULT_SYSTEM_PARAMS
  /\ calculateTokenPrice INITIAL_GLOBAL_MINTED DEFAULT_SYSTEM_PARAMS
     <= tokenPrice (results initialUserInputs DEFAULT_SYSTEM_PARAMS).
Proof.
  apply (results_tokenPrice_ge_initial initialUserInputs DEFAULT_SYSTEM_PARAMS).
  - exact DEFAULT_SYSTEM_PARAMS_inDomain.
  - exact initialUserInputs_inDomain.
Defined.
